(** * Search syntax parser (static/app/components/searchSyntax/parser.tsx)

    A shallow embedding of the token converter, the filter validation and
    the public [parseSearch] / [joinQuery] functions, together with
    [getValidOps] of the smart search bar utilities. *)

From Stdlib Require Import ZArith QArith Qcanon Ascii String.
From stdpp Require Import base strings list gmap pretty.

Local Open Scope string_scope.
Local Open Scope list_scope.

(** ** Enumerations *)

(** [enum Token]: the discriminator of a node of the syntax tree. *)
Module Token.
Inductive t :=
  | Spaces | Filter | FreeText | LogicGroup | LogicBoolean
  | KeySimple | KeyExplicitTag | KeyAggregate | KeyAggregateArgs
  | KeyAggregateParam
  | ValueIso8601Date | ValueRelativeDate | ValueDuration | ValuePercentage
  | ValueBoolean | ValueNumber | ValueText | ValueNumberList | ValueTextList.

#[global] Instance Token_eq_dec : EqDecision t.
Proof. solve_decision. Defined.
End Token.

(** [enum TermOperator]: an operator in a key value term. *)
Module TermOperator.
Inductive t :=
  | Default | GreaterThanEqual | LessThanEqual | GreaterThan | LessThan
  | Equal | NotEqual.

#[global] Instance TermOperator_eq_dec : EqDecision t.
Proof. solve_decision. Defined.

  (** The string each member stands for. *)
Definition to_string (o : t) : string :=
    match o with
    | Default => ""
    | GreaterThanEqual => ">="
    | LessThanEqual => "<="
    | GreaterThan => ">"
    | LessThan => "<"
    | Equal => "="
    | NotEqual => "!="
    end.
End TermOperator.

(** [enum BooleanOperator]. *)
Module BooleanOperator.
Inductive t := And | Or.
End BooleanOperator.

(** [enum FilterType]: the sixteen variants of a filter. *)
Module FilterType.
Inductive t :=
  | Text | TextIn | Date | SpecificDate | RelativeDate | Duration
  | Numeric | NumericIn | Boolean
  | AggregateDuration | AggregatePercentage | AggregateNumeric
  | AggregateDate | AggregateRelativeDate
  | Has | Is.

#[global] Instance FilterType_eq_dec : EqDecision t.
Proof. solve_decision. Defined.
End FilterType.

(** [type AggregateFilter]: the union of the five aggregate filter types. *)
Module AggregateFilter.
Inductive t :=
  | AggregateDate | AggregateDuration | AggregateNumeric
  | AggregatePercentage | AggregateRelativeDate.

Definition to_filter (a : t) : FilterType.t :=
    match a with
    | AggregateDate => FilterType.AggregateDate
    | AggregateDuration => FilterType.AggregateDuration
    | AggregateNumeric => FilterType.AggregateNumeric
    | AggregatePercentage => FilterType.AggregatePercentage
    | AggregateRelativeDate => FilterType.AggregateRelativeDate
    end.
End AggregateFilter.

Coercion AggregateFilter.to_filter : AggregateFilter.t >-> FilterType.t.

(** [FieldKind] and [FieldValueType] of sentry/utils/fields; only the
    members the parser and the specification name. *)
Module FieldKind.
Inductive t := FIELD | FUNCTION.

#[global] Instance FieldKind_eq_dec : EqDecision t.
Proof. solve_decision. Defined.
End FieldKind.

Module FieldValueType.
Inductive t :=
  | BOOLEAN | DATE | DURATION | INTEGER | NUMBER | PERCENTAGE | STRING.

#[global] Instance FieldValueType_eq_dec : EqDecision t.
Proof. solve_decision. Defined.

Definition to_string (v : t) : string :=
    match v with
    | BOOLEAN => "boolean"
    | DATE => "date"
    | DURATION => "duration"
    | INTEGER => "integer"
    | NUMBER => "number"
    | PERCENTAGE => "percentage"
    | STRING => "string"
    end.
End FieldValueType.

(** [ColumnType] of sentry/utils/discover/fields is the same set of names. *)
Definition ColumnType : Type := FieldValueType.t.

(** ** Operators and the filter type configuration *)

Definition allOperators : list TermOperator.t :=
  [TermOperator.Default; TermOperator.GreaterThanEqual;
   TermOperator.LessThanEqual; TermOperator.GreaterThan;
   TermOperator.LessThan; TermOperator.Equal; TermOperator.NotEqual].

Definition basicOperators : list TermOperator.t :=
  [TermOperator.Default; TermOperator.NotEqual].

(** Map of certain filter types to other filter types with applicable
    operators.  An object literal with two keys: every other key looks up
    as [undefined]. *)
Definition interchangeableFilterOperators (f : FilterType.t)
  : option (list FilterType.t) :=
  match f with
  | FilterType.SpecificDate => Some [FilterType.Date]
  | FilterType.Date => Some [FilterType.SpecificDate]
  | _ => None
  end.

Definition textKeys : list Token.t := [Token.KeySimple; Token.KeyExplicitTag].

Record FilterConfig := {
  validKeys : list Token.t;
  validOps : list TermOperator.t;
  validValues : list Token.t;
  canNegate : bool;
}.

Definition filterTypeConfig (f : FilterType.t) : FilterConfig :=
  match f with
  | FilterType.Text =>
      {| validKeys := textKeys; validOps := basicOperators;
         validValues := [Token.ValueText]; canNegate := true |}
  | FilterType.TextIn =>
      {| validKeys := textKeys; validOps := [];
         validValues := [Token.ValueTextList]; canNegate := true |}
  | FilterType.Date =>
      {| validKeys := [Token.KeySimple]; validOps := allOperators;
         validValues := [Token.ValueIso8601Date]; canNegate := false |}
  | FilterType.SpecificDate =>
      {| validKeys := [Token.KeySimple]; validOps := [];
         validValues := [Token.ValueIso8601Date]; canNegate := false |}
  | FilterType.RelativeDate =>
      {| validKeys := [Token.KeySimple]; validOps := [];
         validValues := [Token.ValueRelativeDate]; canNegate := false |}
  | FilterType.Duration =>
      {| validKeys := [Token.KeySimple]; validOps := allOperators;
         validValues := [Token.ValueDuration]; canNegate := true |}
  | FilterType.Numeric =>
      {| validKeys := [Token.KeySimple]; validOps := allOperators;
         validValues := [Token.ValueNumber]; canNegate := true |}
  | FilterType.NumericIn =>
      {| validKeys := [Token.KeySimple]; validOps := [];
         validValues := [Token.ValueNumberList]; canNegate := true |}
  | FilterType.Boolean =>
      {| validKeys := [Token.KeySimple]; validOps := basicOperators;
         validValues := [Token.ValueBoolean]; canNegate := true |}
  | FilterType.AggregateDuration =>
      {| validKeys := [Token.KeyAggregate]; validOps := allOperators;
         validValues := [Token.ValueDuration]; canNegate := true |}
  | FilterType.AggregateNumeric =>
      {| validKeys := [Token.KeyAggregate]; validOps := allOperators;
         validValues := [Token.ValueNumber]; canNegate := true |}
  | FilterType.AggregatePercentage =>
      {| validKeys := [Token.KeyAggregate]; validOps := allOperators;
         validValues := [Token.ValuePercentage]; canNegate := true |}
  | FilterType.AggregateDate =>
      {| validKeys := [Token.KeyAggregate]; validOps := allOperators;
         validValues := [Token.ValueIso8601Date]; canNegate := true |}
  | FilterType.AggregateRelativeDate =>
      {| validKeys := [Token.KeyAggregate]; validOps := allOperators;
         validValues := [Token.ValueRelativeDate]; canNegate := true |}
  | FilterType.Has =>
      {| validKeys := [Token.KeySimple]; validOps := basicOperators;
         validValues := []; canNegate := true |}
  | FilterType.Is =>
      {| validKeys := [Token.KeySimple]; validOps := basicOperators;
         validValues := [Token.ValueText]; canNegate := true |}
  end.

(** The multipliers of the unit suffixes of a number, looked up with the
    unit the grammar hands over: k, m, b or none. *)
Definition numberUnits : gmap string Z :=
  {[ "b" := 1000000000%Z; "m" := 1000000%Z; "k" := 1000%Z ]}.

(** ** Tokens

    Every token carries [text] and [location] (the [defaultTokenFields] of
    the converter) next to its own payload.  One module per token type
    keeps the field names of the source. *)

(** pegjs [LocationRange]. *)
Record Location := { offset : nat; line : nat; column : nat }.
Record LocationRange := { loc_start : Location; loc_end : Location }.

Module Spaces.
Record t := { text : string; location : LocationRange; value : string }.
End Spaces.

Module FreeText.
Record t := {
  text : string; location : LocationRange; value : string; quoted : bool }.
End FreeText.

Module LogicBoolean.
Record t := {
  text : string; location : LocationRange; value : BooleanOperator.t }.
End LogicBoolean.

Module KeySimple.
Record t := {
  text : string; location : LocationRange; value : string; quoted : bool }.
End KeySimple.

Module KeyExplicitTag.
Record t := {
  text : string; location : LocationRange; prefix : string;
  key : KeySimple.t }.
End KeyExplicitTag.

Module KeyAggregateParam.
Record t := {
  text : string; location : LocationRange; value : string; quoted : bool }.
End KeyAggregateParam.

(** The result of [listJoiner]: an element of a list with the separator in
    front of it; a missing element is [null]. *)
Record ListEntry (V : Type) := { separator : string; entry : option V }.
Arguments separator {V} _.
Arguments entry {V} _.

Module KeyAggregateArgs.
Record t := {
  text : string; location : LocationRange;
  args : list (ListEntry KeyAggregateParam.t) }.
End KeyAggregateArgs.

Module KeyAggregate.
Record t := {
  text : string; location : LocationRange; name : KeySimple.t;
  args : option KeyAggregateArgs.t;
  argsSpaceBefore : Spaces.t; argsSpaceAfter : Spaces.t }.
End KeyAggregate.

(** The keys of a text filter ([textKeys]) and the keys of any filter. *)
Inductive TextKey :=
| TextKeySimple (k : KeySimple.t)
| TextKeyExplicitTag (k : KeyExplicitTag.t).

Inductive Key :=
| KSimple (k : KeySimple.t)
| KExplicitTag (k : KeyExplicitTag.t)
| KAggregate (k : KeyAggregate.t).

Definition key_of_text_key (k : TextKey) : Key :=
  match k with
  | TextKeySimple k => KSimple k
  | TextKeyExplicitTag k => KExplicitTag k
  end.

(** ** The field catalog (sentry/utils/fields, sentry/utils/discover/fields) *)

(** [valueType] is a value type or [null], here [None]. *)
Record FieldDefinition := {
  kind : FieldKind.t;
  valueType : option FieldValueType.t;
  allowTextOperators : option bool;
}.

(** [columnTypes] of a column parameter: a validation function on
    [{name, dataType}] or an array of column types. *)
Inductive ColumnTypes :=
| ColumnTypesFn (f : string -> option FieldValueType.t -> bool)
| ColumnTypesList (l : list ColumnType).

Record DropdownOption := { option_label : string; option_value : string }.

(** [AggregateParameter]: the three kinds of parameter of an aggregate. *)
Inductive AggregateParameter :=
| ParamColumn (columnTypes : ColumnTypes) (required : bool)
| ParamDropdown (options : list DropdownOption) (dataType : ColumnType)
    (required : bool)
| ParamValue (dataType : ColumnType) (required : bool).

Definition param_required (p : AggregateParameter) : bool :=
  match p with
  | ParamColumn _ r | ParamDropdown _ _ r | ParamValue _ r => r
  end.

Record Aggregation := { parameters : list AggregateParameter }.

(** What the parser imports and this development does not define: the
    field catalog (with [FIELDS] standing for its keys, [Object.keys]) and
    the aggregate table of sentry/utils, [getKeyName] of
    ./utils, and the reading of the clock the date hint formats
    ([new Date()] with seconds and milliseconds set to zero, as an ISO
    string). *)
Class Imports := {
  getFieldDefinition : string -> option FieldDefinition;
  AGGREGATIONS : gmap string Aggregation;
  isMeasurement : string -> bool;
  isSpanOperationBreakdownField : string -> bool;
  measurementType : string -> string;
  FIELDS : list string;
  getKeyName : Key -> string;
  nowISOString : string;
}.

(** The numbers and dates of the host language: [Number(s)], numeric
    literals, [*] and [moment(s)]. *)
Class JSRuntime := {
  number : Type;
  Number : string -> number;
  number_of_Z : Z -> number;
  number_mul : number -> number -> number;
  Moment : Type;
  moment : string -> Moment;
}.

Module ValueText.
Record t := {
  text : string; location : LocationRange; value : string; quoted : bool }.
End ValueText.

Module ValueTextList.
Record t := {
  text : string; location : LocationRange;
  items : list (ListEntry ValueText.t) }.
End ValueTextList.

Module ValueNumber.
Record t `{JSRuntime} := {
  text : string; location : LocationRange; value : string;
  rawValue : number; unit : string }.
End ValueNumber.

Module ValueNumberList.
Record t `{JSRuntime} := {
  text : string; location : LocationRange;
  items : list (ListEntry ValueNumber.t) }.
End ValueNumberList.

Module ValueBoolean.
Record t := { text : string; location : LocationRange; value : bool }.
End ValueBoolean.

Module ValueDuration.
Record t `{JSRuntime} := {
  text : string; location : LocationRange; value : number; unit : string }.
End ValueDuration.

Module ValuePercentage.
Record t `{JSRuntime} := {
  text : string; location : LocationRange; value : number }.
End ValuePercentage.

Module ValueIso8601Date.
Record t `{JSRuntime} := {
  text : string; location : LocationRange; value : Moment }.
End ValueIso8601Date.

Module ValueRelativeDate.
Record t `{JSRuntime} := {
  text : string; location : LocationRange; value : number;
  sign : string; unit : string }.
End ValueRelativeDate.

(** ** Strings of the host language *)

Definition dquote : ascii := Ascii.ascii_of_nat 34.
Definition backslash : ascii := Ascii.ascii_of_nat 92.

Definition is_upper (c : ascii) : bool :=
  let n := Ascii.nat_of_ascii c in ((65 <=? n) && (n <=? 90))%nat.

Definition is_digit (c : ascii) : bool :=
  let n := Ascii.nat_of_ascii c in ((48 <=? n) && (n <=? 57))%nat.

(** White space [parseFloat] skips, within ASCII. *)
Definition is_white_space (c : ascii) : bool :=
  let n := Ascii.nat_of_ascii c in
  ((n =? 9) || (n =? 10) || (n =? 11) || (n =? 12) || (n =? 13)
   || (n =? 32))%nat.

Definition lower_char (c : ascii) : ascii :=
  if is_upper c then Ascii.ascii_of_nat (Ascii.nat_of_ascii c + 32) else c.

(** [String.prototype.toLowerCase] on the characters of ASCII. *)
Fixpoint toLowerCase (s : string) : string :=
  match s with
  | EmptyString => EmptyString
  | String c r => String (lower_char c) (toLowerCase r)
  end.

(** [Array.prototype.includes] on strings. *)
Definition includes (l : list string) (s : string) : bool :=
  existsb (String.eqb s) l.

(** [Array.prototype.join]. *)
Definition join (sep : string) (l : list string) : string :=
  String.concat sep l.

(** The regular expression test of [checkInvalidTextValue]: some double
    quote stands first or after a character other than a backslash. *)
Fixpoint unescaped_quote_after (prev : option ascii) (s : string) : bool :=
  match s with
  | EmptyString => false
  | String c r =>
      (Ascii.eqb c dquote
       && match prev with
          | None => true
          | Some p => negb (Ascii.eqb p backslash)
          end)
      || unescaped_quote_after (Some c) r
  end.

Definition has_unescaped_quote (s : string) : bool :=
  unescaped_quote_after None s.

Fixpoint skip_white_space (s : string) : string :=
  match s with
  | String c r => if is_white_space c then skip_white_space r else s
  | EmptyString => EmptyString
  end.

Definition skip_sign (s : string) : string :=
  match s with
  | String c r =>
      if Ascii.eqb c "+"%char || Ascii.eqb c "-"%char then r else s
  | EmptyString => EmptyString
  end.

(** [isNaN(parseFloat(s))]: [parseFloat] skips leading white space and
    reads the longest prefix that is a decimal literal; it is [NaN] exactly
    when there is none, that is unless, after an optional sign, the input
    starts with a digit, with a dot and a digit, or with [Infinity]. *)
Definition isNaN_parseFloat (s : string) : bool :=
  match skip_sign (skip_white_space s) with
  | String c r =>
      negb (is_digit c
            || (Ascii.eqb c "."%char
                && match r with String d _ => is_digit d | _ => false end)
            || String.prefix "Infinity" (String c r))
  | EmptyString => true
  end.

(** Modelled from the spec: the translation function [t] of sentry/locale
    is not under src/.  The spec gives every reason as the English
    template, so [t] is the formatter of the untranslated locale: each
    [%s] of the template is replaced by the next argument. *)
Fixpoint t (template : string) (args : list string) : string :=
  match template with
  | String "%" (String "s" rest) =>
      match args with
      | a :: args' => a +:+ t rest args'
      | [] => String "%" (String "s" (t rest []))
      end
  | String c rest => String c (t rest args)
  | EmptyString => EmptyString
  end.

(** ** Search configuration and the token converter *)

Record SearchConfig := {
  allowBoolean : bool;
  booleanKeys : gset string;
  dateKeys : gset string;
  durationKeys : gset string;
  numericKeys : gset string;
  percentageKeys : gset string;
  textOperatorKeys : gset string;
}.

(** Object representing an invalid filter state. *)
Record InvalidFilter := {
  reason : string;
  expectedType : option (list FilterType.t);
}.

(** The state of a [TokenConverter]: the matched text, its location and the
    configuration. *)
Record TokenConverter := {
  tc_text : string;
  tc_location : LocationRange;
  tc_config : SearchConfig;
}.

(** ** The discriminated filter union ([FilterMap])

    [keyT f] and [valueT f] are the key and value types the configuration
    correlates with the filter type [f].  [validValues] of [Has] is empty;
    the converter reads its value as a text value, which is the type given
    here. *)
Section Filters.
Context {R : JSRuntime}.

Definition keyT (f : FilterType.t) : Type :=
  match f with
  | FilterType.Text | FilterType.TextIn => TextKey
  | FilterType.AggregateDuration | FilterType.AggregatePercentage
  | FilterType.AggregateNumeric | FilterType.AggregateDate
  | FilterType.AggregateRelativeDate => KeyAggregate.t
  | _ => KeySimple.t
  end.

Definition valueT (f : FilterType.t) : Type :=
  match f with
  | FilterType.Text | FilterType.Is | FilterType.Has => ValueText.t
  | FilterType.TextIn => ValueTextList.t
  | FilterType.Date | FilterType.SpecificDate | FilterType.AggregateDate =>
      ValueIso8601Date.t
  | FilterType.RelativeDate | FilterType.AggregateRelativeDate =>
      ValueRelativeDate.t
  | FilterType.Duration | FilterType.AggregateDuration => ValueDuration.t
  | FilterType.Numeric | FilterType.AggregateNumeric => ValueNumber.t
  | FilterType.NumericIn => ValueNumberList.t
  | FilterType.Boolean => ValueBoolean.t
  | FilterType.AggregatePercentage => ValuePercentage.t
  end.

Definition key_of {f : FilterType.t} : keyT f -> Key :=
  match f with
  | FilterType.Text | FilterType.TextIn => key_of_text_key
  | FilterType.AggregateDuration | FilterType.AggregatePercentage
  | FilterType.AggregateNumeric | FilterType.AggregateDate
  | FilterType.AggregateRelativeDate => KAggregate
  | _ => KSimple
  end.

(** [value.text] of the value of a filter. *)
Definition value_text {f : FilterType.t} : valueT f -> string :=
  match f with
  | FilterType.Text | FilterType.Is | FilterType.Has => ValueText.text
  | FilterType.TextIn => ValueTextList.text
  | FilterType.Date | FilterType.SpecificDate | FilterType.AggregateDate =>
      ValueIso8601Date.text
  | FilterType.RelativeDate | FilterType.AggregateRelativeDate =>
      ValueRelativeDate.text
  | FilterType.Duration | FilterType.AggregateDuration => ValueDuration.text
  | FilterType.Numeric | FilterType.AggregateNumeric => ValueNumber.text
  | FilterType.NumericIn => ValueNumberList.text
  | FilterType.Boolean => ValueBoolean.text
  | FilterType.AggregatePercentage => ValuePercentage.text
  end.

(** The filter token ([FilterResult] with the default token fields). *)
Record FilterToken := {
  text : string;
  location : LocationRange;
  filter : FilterType.t;
  key : keyT filter;
  value : valueT filter;
  negated : bool;
  operator : TermOperator.t;
  invalid : option InvalidFilter;
}.

(** The terms of a query ([ParseResult]); a group nests terms. *)
#[warnings="-register-all"]
Inductive Term :=
| TSpaces (s : Spaces.t)
| TFilter (f : FilterToken)
| TFreeText (f : FreeText.t)
| TLogicGroup (text : string) (location : LocationRange) (inner : list Term)
| TLogicBoolean (b : LogicBoolean.t).

(** [p.text] of a term. *)
Definition term_text (p : Term) : string :=
  match p with
  | TSpaces s => Spaces.text s
  | TFilter f => text f
  | TFreeText f => FreeText.text f
  | TLogicGroup text _ _ => text
  | TLogicBoolean b => LogicBoolean.text b
  end.

Definition ParseResult : Type := list Term.

End Filters.

(** ** The token converter *)
Section Converter.
Context {R : JSRuntime} {I : Imports}.
Variable tc : TokenConverter.

(** [keyValidation]: validates various types of keys. *)
Definition isNumeric (key : string) : bool :=
  bool_decide (key ∈ numericKeys (tc_config tc))
  || isMeasurement key
  || isSpanOperationBreakdownField key.

Definition isBoolean (key : string) : bool :=
  bool_decide (key ∈ booleanKeys (tc_config tc)).

Definition isPercentage (key : string) : bool :=
  bool_decide (key ∈ percentageKeys (tc_config tc)).

Definition isDate (key : string) : bool :=
  bool_decide (key ∈ dateKeys (tc_config tc)).

Definition isDuration (key : string) : bool :=
  bool_decide (key ∈ durationKeys (tc_config tc))
  || isSpanOperationBreakdownField key
  || String.eqb (measurementType key) "duration".

(** [getFieldDefinition(keyName)?.kind === FieldKind.FUNCTION]. *)
Definition keyIsAggregate (keyName : string) : bool :=
  match getFieldDefinition keyName with
  | Some d => bool_decide (kind d = FieldKind.FUNCTION)
  | None => false
  end.

(** Value tokens. *)
Definition tokenValueText (value : string) (quoted : bool) : ValueText.t :=
  {| ValueText.text := tc_text tc; ValueText.location := tc_location tc;
     ValueText.value := value; ValueText.quoted := quoted |}.

Definition tokenValueBoolean (value : string) : ValueBoolean.t :=
  {| ValueBoolean.text := tc_text tc;
     ValueBoolean.location := tc_location tc;
     ValueBoolean.value := includes ["1"; "true"] (toLowerCase value) |}.

Definition tokenValueNumber (value : string) (unit : string)
  : ValueNumber.t :=
  {| ValueNumber.text := tc_text tc;
     ValueNumber.location := tc_location tc;
     ValueNumber.value := value;
     ValueNumber.rawValue :=
       number_mul (Number value)
         (number_of_Z (default 1%Z (numberUnits !! unit)));
     ValueNumber.unit := unit |}.

Definition tokenKeySimple (value : string) (quoted : bool) : KeySimple.t :=
  {| KeySimple.text := tc_text tc; KeySimple.location := tc_location tc;
     KeySimple.value := value; KeySimple.quoted := quoted |}.

(** [aggregateKey.args?.args] after the cast of the key to an aggregate
    key: [undefined] on a key without [args] and on [args: null]. *)
Definition key_args (key : Key)
  : option (list (ListEntry KeyAggregateParam.t)) :=
  match key with
  | KAggregate k => KeyAggregateArgs.args <$> KeyAggregate.args k
  | _ => None
  end.

(** [arg?.value?.value ?? ''] *)
Definition arg_value_or_empty (arg : ListEntry KeyAggregateParam.t)
  : string :=
  match entry arg with
  | Some p => KeyAggregateParam.value p
  | None => ""
  end.

Definition checkAggregate (key : Key) (keyName : string)
    (check : string -> bool) : bool :=
  check keyName
  && match key_args key with
     | None => true
     | Some args => existsb (fun arg => check (arg_value_or_empty arg)) args
     end.

(** Predicates whether a filter should match while tokenizing. *)
Definition predicateFilter (type : FilterType.t) (key : Key) : bool :=
  let keyName := getKeyName key in
  if keyIsAggregate keyName then
    (* Be very strict with aggregate keys *)
    match type with
    | FilterType.AggregateDuration => checkAggregate key keyName isDuration
    | FilterType.AggregateNumeric | FilterType.AggregateDate
    | FilterType.AggregatePercentage | FilterType.AggregateRelativeDate =>
        true
    | FilterType.Text => true
    | _ => false
    end
  else
    match type with
    | FilterType.Numeric | FilterType.NumericIn => isNumeric keyName
    | FilterType.Duration => isDuration keyName
    | FilterType.Boolean => isBoolean keyName
    | FilterType.Date | FilterType.RelativeDate | FilterType.SpecificDate =>
        isDate keyName
    | _ => true
    end.

(** Predicates whether a text filter has operators for specific keys. *)
Definition predicateTextOperator (key : TextKey) : bool :=
  bool_decide (getKeyName (key_of_text_key key)
               ∈ textOperatorKeys (tc_config tc)).

(** Validates the value of a text filter. *)
Definition checkInvalidTextValue (value : ValueText.t)
  : option InvalidFilter :=
  if negb (ValueText.quoted value)
     && has_unescaped_quote (ValueText.value value)
  then Some {| reason := t "Quotes must enclose text or be escaped" [];
               expectedType := None |}
  else if negb (ValueText.quoted value)
          && String.eqb (ValueText.value value) ""
  then Some {| reason := t "Filter must have a value" [];
               expectedType := None |}
  else None.

(** Validates text filters which may have failed predication. *)
Definition checkInvalidTextFilter (key : TextKey) (value : ValueText.t)
  : option InvalidFilter :=
  match key with
  | TextKeyExplicitTag _ =>
      (* Explicit tag keys will always be treated as text filters *)
      checkInvalidTextValue value
  | TextKeySimple _ =>
      let keyName := getKeyName (key_of_text_key key) in
      (* Let text keys that match aggregate filters go through *)
      if negb (keyIsAggregate keyName) then
        if isDuration keyName then
          Some {| reason :=
                    t "Invalid duration. Expected number followed by duration unit suffix" [];
                  expectedType := Some [FilterType.Duration] |}
        else if isDate keyName then
          let example := nowISOString in
          Some {| reason :=
                    t "Invalid date format. Expected +/-duration (e.g. +1h) or ISO 8601-like (e.g. %s or %s)"
                      [String.substring 0 10 example; example];
                  expectedType :=
                    Some [FilterType.Date; FilterType.SpecificDate;
                          FilterType.RelativeDate] |}
        else if isBoolean keyName then
          Some {| reason :=
                    t "Invalid boolean. Expected true, 1, false, or 0." [];
                  expectedType := Some [FilterType.Boolean] |}
        else if isNumeric keyName then
          Some {| reason :=
                    t "Invalid number. Expected number then optional k, m, or b suffix (e.g. 500k)" [];
                  expectedType :=
                    Some [FilterType.Numeric; FilterType.NumericIn] |}
        else checkInvalidTextValue value
      else checkInvalidTextValue value
  end.

(** Validates IN filter values do not have any missing elements. *)
Definition checkInvalidInFilter {V : Type} (items : list (ListEntry V))
  : option InvalidFilter :=
  let hasEmptyValue :=
    existsb (fun item => match entry item with None => true | _ => false end)
      items in
  if hasEmptyValue
  then Some {| reason := t "Lists should not have empty values" [];
               expectedType := None |}
  else None.

End Converter.

(** ** Validation of the arguments of an aggregate *)
Section AggregateParameters.
Context {I : Imports}.

Definition getValueType (key : string) : ColumnType :=
  if negb (isNaN_parseFloat key) then FieldValueType.NUMBER
  else FieldValueType.STRING.

(** [!parameterValue] on an optional string: [undefined] and the empty
    string are falsy. *)
Definition falsy (parameterValue : option string) : bool :=
  match parameterValue with
  | None => true
  | Some s => String.eqb s ""
  end.

Definition validateAggregateParameterColumn (keyName : string)
    (columnTypes : ColumnTypes) (position : nat) (parameterValue : string)
  : option InvalidFilter :=
  let definition := getFieldDefinition keyName in
  match columnTypes with
  | ColumnTypesFn f =>
      if negb (f parameterValue (definition ≫= valueType))
      then Some {| reason :=
                     "Argument " +:+ pretty position
                     +:+ " is an invalid column type.";
                   expectedType := None |}
      else None
  | ColumnTypesList l =>
      match getFieldDefinition parameterValue with
      | None =>
          Some {| reason :=
                    keyName +:+ " expects argument " +:+ pretty position
                    +:+ " to be a column.";
                  expectedType := None |}
      | Some columnParameterFieldDefinition =>
          if negb (existsb
                     (fun columnOrMetricType =>
                        bool_decide
                          (Some columnOrMetricType
                           = valueType columnParameterFieldDefinition))
                     l)
          then Some {| reason :=
                         keyName +:+ " expects argument "
                         +:+ pretty position
                         +:+ " to be a column of type: "
                         +:+ join ", " (map FieldValueType.to_string l)
                         +:+ ".";
                       expectedType := None |}
          else None
      end
  end.

(** Validates a value against the provided aggregate parameter
    definition.  Returns null if valid - otherwise, returns a reason. *)
Definition validateAggregateParameter (keyName : string)
    (parameterDefinition : option AggregateParameter)
    (parameterValue : option string) (position : nat)
    (numExpectedArguments : nat) : option InvalidFilter :=
  match parameterDefinition with
  | None =>
      Some {| reason :=
                keyName +:+ " is expecting " +:+ pretty numExpectedArguments
                +:+ " arguments.";
              expectedType := None |}
  | Some definition =>
      if param_required definition && falsy parameterValue then
        Some {| reason :=
                  keyName +:+ " is expecting "
                  +:+ pretty numExpectedArguments +:+ " arguments.";
                expectedType := None |}
      else if falsy parameterValue then None
      else
        let value := default "" parameterValue in
        match definition with
        | ParamColumn columnTypes _ =>
            validateAggregateParameterColumn keyName columnTypes position
              value
        | ParamDropdown options _ _ =>
            match find (fun option => String.eqb (option_value option) value)
                    options with
            | None =>
                Some {| reason :=
                          keyName +:+ " expects argument "
                          +:+ pretty position +:+ " to be one of: "
                          +:+ join ", "
                                (map (fun option =>
                                        "'" +:+ option_value option +:+ "'")
                                   options);
                        expectedType := None |}
            | Some _ => None
            end
        | ParamValue dataType _ =>
            if negb (bool_decide (getValueType value = dataType))
            then Some {| reason :=
                           keyName +:+ " expects arument "
                           +:+ pretty position +:+ " to be of type "
                           +:+ FieldValueType.to_string dataType;
                         expectedType := None |}
            else None
        end
  end.

End AggregateParameters.

(** ** The validator of the converter *)
Section Validator.
Context {R : JSRuntime} {I : Imports}.
Variable tc : TokenConverter.

(** [`${definition?.valueType}`]: the template renders a missing
    definition as the word undefined and the value type [null] of a
    definition as the word null, so the [??] alternative behind it is
    never taken. *)
Definition render_valueType (definition : option FieldDefinition) : string :=
  match definition with
  | None => "undefined"
  | Some definition =>
      match valueType definition with
      | Some v => FieldValueType.to_string v
      | None => "null"
      end
  end.

(** Validates the value provided to the aggregation filter. *)
Definition checkInvalidAggregateFilterValue (filterType : AggregateFilter.t)
    (key : KeyAggregate.t) (value : valueT filterType)
  : option InvalidFilter :=
  let keyName := KeySimple.text (KeyAggregate.name key) in
  let definition := getFieldDefinition keyName in
  let wrongValueTypeReason :=
    {| reason :=
         "'" +:+ keyName +:+ "' returns a " +:+ render_valueType definition
         +:+ "; '" +:+ value_text value +:+ "' is not valid here.";
       expectedType := None |} in
  match filterType with
  | AggregateFilter.AggregateRelativeDate | AggregateFilter.AggregateDate =>
      if negb (isDate tc keyName) then Some wrongValueTypeReason else None
  | AggregateFilter.AggregateDuration =>
      if negb (isDuration tc keyName) then Some wrongValueTypeReason
      else None
  | AggregateFilter.AggregatePercentage =>
      if negb (isPercentage tc keyName) then Some wrongValueTypeReason
      else None
  | AggregateFilter.AggregateNumeric =>
      if negb (isNumeric tc keyName) then Some wrongValueTypeReason
      else None
  end.

(** [key.args?.args[argIndex]?.value?.value] *)
Definition parameterValue_at (key : KeyAggregate.t) (argIndex : nat)
  : option string :=
  args ← KeyAggregate.args key;
  arg ← KeyAggregateArgs.args args !! argIndex;
  KeyAggregateParam.value <$> entry arg.

(** The loop over the argument positions: the first reason wins. *)
Fixpoint first_reason (check : nat -> option InvalidFilter)
    (indices : list nat) : option InvalidFilter :=
  match indices with
  | [] => None
  | argIndex :: rest =>
      match check argIndex with
      | Some reason => Some reason
      | None => first_reason check rest
      end
  end.

(** Validates the aggregate filter value and arguments against their
    known types. *)
Definition checkInvalidAggregateFilter (filterType : AggregateFilter.t)
    (key : KeyAggregate.t) (value : valueT filterType)
  : option InvalidFilter :=
  let keyName := KeySimple.text (KeyAggregate.name key) in
  match checkInvalidAggregateFilterValue filterType key value with
  | Some invalidValueReason => Some invalidValueReason
  | None =>
      match AGGREGATIONS !! keyName with
      | None => None
      | Some aggregation =>
          let numExpectedArguments := length (parameters aggregation) in
          let numProvidedArguments :=
            match KeyAggregate.args key with
            | Some args => length (KeyAggregateArgs.args args)
            | None => 0
            end in
          first_reason
            (fun argIndex =>
               validateAggregateParameter keyName
                 (parameters aggregation !! argIndex)
                 (parameterValue_at key argIndex)
                 (argIndex + 1) numExpectedArguments)
            (seq 0 (Nat.max numExpectedArguments numProvidedArguments))
      end
  end.

(** Checks a filter against some non-grammar validation rules. *)
Definition checkInvalidFilter (filter : FilterType.t)
  : keyT filter -> valueT filter -> option InvalidFilter :=
  match filter with
  | FilterType.Text => fun key value => checkInvalidTextFilter tc key value
  | FilterType.Is | FilterType.Has =>
      fun _ value => checkInvalidTextValue value
  | FilterType.TextIn =>
      fun _ value => checkInvalidInFilter (ValueTextList.items value)
  | FilterType.NumericIn =>
      fun _ value => checkInvalidInFilter (ValueNumberList.items value)
  | FilterType.AggregateDate =>
      checkInvalidAggregateFilter AggregateFilter.AggregateDate
  | FilterType.AggregateDuration =>
      checkInvalidAggregateFilter AggregateFilter.AggregateDuration
  | FilterType.AggregateNumeric =>
      checkInvalidAggregateFilter AggregateFilter.AggregateNumeric
  | FilterType.AggregatePercentage =>
      checkInvalidAggregateFilter AggregateFilter.AggregatePercentage
  | FilterType.AggregateRelativeDate =>
      checkInvalidAggregateFilter AggregateFilter.AggregateRelativeDate
  | _ => fun _ _ => None
  end.

(** [operator ?? TermOperator.Default] *)
Definition tokenFilter (filter : FilterType.t) (key : keyT filter)
    (value : valueT filter) (operator : option TermOperator.t)
    (negated : bool) : FilterToken :=
  {| text := tc_text tc;
     location := tc_location tc;
     filter := filter;
     key := key;
     value := value;
     negated := negated;
     operator := default TermOperator.Default operator;
     invalid := checkInvalidFilter filter key value |}.

(** The constructors of the terms that are not filters. *)
Definition tokenSpaces (value : string) : Term :=
  TSpaces {| Spaces.text := tc_text tc; Spaces.location := tc_location tc;
             Spaces.value := value |}.

Definition tokenFreeText (value : string) (quoted : bool) : Term :=
  TFreeText {| FreeText.text := tc_text tc;
               FreeText.location := tc_location tc;
               FreeText.value := value; FreeText.quoted := quoted |}.

Definition tokenLogicGroup (inner : list Term) : Term :=
  TLogicGroup (tc_text tc) (tc_location tc) inner.

Definition tokenLogicBoolean (bool : BooleanOperator.t) : Term :=
  TLogicBoolean {| LogicBoolean.text := tc_text tc;
                   LogicBoolean.location := tc_location tc;
                   LogicBoolean.value := bool |}.

End Validator.

(** ** Exceptions

    A call either returns a value or throws; [try_catch] is the
    [try { ... } catch (e) { ... }] statement. *)
Inductive Exception :=
| SyntaxError (message : string)
| TypeError (message : string).

Inductive outcome (A : Type) :=
| Returned (a : A)
| Thrown (e : Exception).
Arguments Returned {A} a.
Arguments Thrown {A} e.

Definition bind {A B : Type} (c : outcome A) (k : A -> outcome B)
  : outcome B :=
  match c with
  | Returned a => k a
  | Thrown e => Thrown e
  end.

Definition try_catch {A : Type} (body : outcome A)
    (handler : Exception -> outcome A) : outcome A :=
  match body with
  | Returned a => Returned a
  | Thrown e => handler e
  end.

(** ** The public functions *)
Section Public.
Context {R : JSRuntime} {I : Imports}.

(** [Object.keys(FIELDS)] filtered by the value types of the fields. *)
Definition getKeySet (allowGenericAggregations : bool)
    (valueTypes : list FieldValueType.t)
    (preFilter : option (string -> bool)) : gset string :=
  let keys := FIELDS in
  let keys :=
    match preFilter with
    | Some f => List.filter f keys
    | None => keys
    end in
  list_to_set
    (List.filter
       (fun fieldKey =>
          match getFieldDefinition fieldKey with
          | Some fieldDef =>
              match valueType fieldDef with
              | Some v =>
                  bool_decide (v ∈ valueTypes)
                  (* the second test needs [!fieldDef.valueType] *)
              | None =>
                  allowGenericAggregations
                  && bool_decide (kind fieldDef = FieldKind.FUNCTION)
              end
          | None => false
          end)
       keys).

Definition defaultConfig : SearchConfig :=
  {| textOperatorKeys :=
       getKeySet false [FieldValueType.STRING]
         (Some (fun fieldKey =>
                  default false
                    (getFieldDefinition fieldKey ≫= allowTextOperators)));
     durationKeys := getKeySet true [FieldValueType.DURATION] None;
     percentageKeys := getKeySet true [FieldValueType.PERCENTAGE] None;
     numericKeys :=
       getKeySet true [FieldValueType.NUMBER; FieldValueType.INTEGER] None;
     dateKeys := getKeySet true [FieldValueType.DATE] None;
     booleanKeys := getKeySet true [FieldValueType.BOOLEAN] None;
     allowBoolean := true |}.

(** The generated parser [grammar.parse(query, options)]: it returns the
    terms or throws. *)
Variable grammar_parse : string -> SearchConfig -> outcome ParseResult.

(** Parse a search query into a ParseResult.  Failing to parse the search
    query will result in null. *)
Definition parseSearch (query : string) : outcome (option ParseResult) :=
  try_catch
    (bind (grammar_parse query defaultConfig) (fun r => Returned (Some r)))
    (fun e => Returned None).

(** Join a parsed query array into a string. *)
Definition joinQuery (parsedTerms : option ParseResult)
    (leadingSpace additionalSpaceBetween : option bool) : string :=
  match parsedTerms with
  | None | Some [] => ""
  | Some (p0 :: rest) =>
      (if default false leadingSpace then " " else "")
      +:+ (if decide (length (p0 :: rest) = 1) then term_text p0
           else join (if default false additionalSpaceBetween then " "
                      else "")
                  (map term_text (p0 :: rest)))
  end.

End Public.

(** ** Valid operators of a filter token (smartSearchBar/utils) *)

(** [[...new Set(l)]]: the elements in the order of their first
    occurrence. *)
Fixpoint new_Set_from {A : Type} `{EqDecision A} (seen l : list A)
  : list A :=
  match l with
  | [] => []
  | x :: r =>
      if bool_decide (x ∈ seen) then new_Set_from seen r
      else x :: new_Set_from (x :: seen) r
  end.

Definition new_Set {A : Type} `{EqDecision A} (l : list A) : list A :=
  new_Set_from [] l.

Definition getValidOps {R : JSRuntime} (filterToken : FilterToken)
  : list TermOperator.t :=
  (* If the token is invalid we want to use the possible expected types
     as our filter type *)
  let validTypes :=
    default [filter filterToken] (invalid filterToken ≫= expectedType) in
  (* Determine any interchangeable filter types for our valid types *)
  let interchangeableTypes :=
    map (fun type => default [] (interchangeableFilterOperators type))
      validTypes in
  (* Combine all types *)
  let allValidTypes := new_Set (validTypes ++ concat interchangeableTypes) in
  (* Find all valid operations *)
  let validOps :=
    new_Set (concat (map (fun type => validOps (filterTypeConfig type))
                       allValidTypes)) in
  validOps.

(** ** The grammar *)
Section Grammar.
Context {R : JSRuntime} {I : Imports}.

(** What the action of a term rule hands to the converter: the
    constructor to call and its arguments. *)
Inductive TermShape :=
| ShapeSpaces (value : string)
| ShapeFilter (filter : FilterType.t) (key : keyT filter)
    (value : valueT filter) (operator : option TermOperator.t)
    (negated : bool)
| ShapeFreeText (value : string) (quoted : bool)
| ShapeLogicGroup (inner : list Term)
| ShapeLogicBoolean (bool : BooleanOperator.t).

Definition construct (tc : TokenConverter) (shape : TermShape) : Term :=
  match shape with
  | ShapeSpaces value => tokenSpaces tc value
  | ShapeFilter filter key value operator negated =>
      TFilter (tokenFilter tc filter key value operator negated)
  | ShapeFreeText value quoted => tokenFreeText tc value quoted
  | ShapeLogicGroup inner => tokenLogicGroup tc inner
  | ShapeLogicBoolean bool => tokenLogicBoolean tc bool
  end.

(** Line and column (both from 1) of an offset. *)
Fixpoint position_at (input : string) (offset line column : nat)
  : Location :=
  match offset, input with
  | S n, String c rest =>
      if Ascii.eqb c (Ascii.ascii_of_nat 10)
      then position_at rest n (S line) 1
      else position_at rest n line (S column)
  | _, _ => {| offset := 0; line := line; column := column |}
  end.

Definition location_at (input : string) (off : nat) : Location :=
  let p := position_at input off 1 1 in
  {| offset := off; line := line p; column := column p |}.

(** The converter as an action sees it: [text()] is the matched span. *)
Definition converter_at (config : SearchConfig) (input : string)
    (start stop : nat) : TokenConverter :=
  {| tc_text := String.substring start (stop - start) input;
     tc_location := {| loc_start := location_at input start;
                       loc_end := location_at input stop |};
     tc_config := config |}.

(** The alternation of the term rules: on the input, from an offset, the
    offset where the matched term stops and what its action constructs. *)
Variable term_rule : SearchConfig -> string -> nat -> option (nat * TermShape).

(** Modelled from the spec: the grammar (grammar.pegjs) is not under
    src/.  The top-level production is a sequence of terms, spaces being
    terms of their own; the constructor of each term captures [text] and
    [location] from the grammar match; the parse fails, by throwing,
    unless the terms cover the input to its end.  An empty input gives
    the empty sequence.  A term rule that matches no character, or
    matches past the end, counts as a failed match. *)
Fixpoint terms_from (config : SearchConfig) (input : string) (fuel : nat)
    (start : nat) : outcome ParseResult :=
  if decide (start = String.length input) then Returned []
  else
    match fuel with
    | 0 => Thrown (SyntaxError "Expected end of input")
    | S fuel' =>
        match term_rule config input start with
        | Some (stop, shape) =>
            if decide (start < stop ∧ stop ≤ String.length input)%nat then
              bind (terms_from config input fuel' stop)
                (fun rest =>
                   Returned
                     (construct (converter_at config input start stop)
                        shape :: rest))
            else Thrown (SyntaxError "Expected a term")
        | None => Thrown (SyntaxError "Expected a term")
        end
    end.

Definition grammar_parse (query : string) (config : SearchConfig)
  : outcome ParseResult :=
  terms_from config query (String.length query) 0.

End Grammar.

(** ** Sample instances

    A runtime with exact decimal numbers, a small field catalog and a
    small instance of the term rules, on which the definitions above
    evaluate. *)

(** Numbers as exact rationals, [None] standing for [NaN]. *)
Fixpoint digits_value (acc : Z) (s : string) : option Z :=
  match s with
  | EmptyString => Some acc
  | String c r =>
      if is_digit c
      then digits_value (10 * acc + Z.of_nat (Ascii.nat_of_ascii c - 48)) r
      else None
  end.

Fixpoint split_at (sep : ascii) (s : string) : string * option string :=
  match s with
  | EmptyString => (EmptyString, None)
  | String c r =>
      if Ascii.eqb c sep then (EmptyString, Some r)
      else let (a, b) := split_at sep r in (String c a, b)
  end.

(** [Number(s)] on the decimal literals of the query language: an
    optional minus sign, digits, and optionally a dot and digits. *)
Definition decimal_Number (s : string) : option Qc :=
  let (negative, body) :=
    match s with
    | String "-" r => (true, r)
    | _ => (false, s)
    end in
  let (whole, fraction) := split_at "."%char body in
  let fraction := default EmptyString fraction in
  if String.eqb whole "" then None
  else
    match digits_value 0 whole, digits_value 0 fraction with
    | Some w, Some f =>
        let scale := (10 ^ Z.of_nat (String.length fraction))%Z in
        let numerator := (w * scale + f)%Z in
        Some (Q2Qc (Qmake (if negative then - numerator else numerator)
                      (Z.to_pos scale)))
    | _, _ => None
    end.

Definition decimal_mul (x y : option Qc) : option Qc :=
  match x, y with
  | Some a, Some b => Some (a * b)%Qc
  | _, _ => None
  end.

#[local] Instance decimal_runtime : JSRuntime := {|
  number := option Qc;
  Number := decimal_Number;
  number_of_Z := fun z => Some (Q2Qc (inject_Z z));
  number_mul := decimal_mul;
  Moment := string;
  moment := fun s => s;
|}.

Definition field (v : FieldValueType.t) : FieldDefinition :=
  {| kind := FieldKind.FIELD; valueType := Some v;
     allowTextOperators := None |}.

Definition function (v : option FieldValueType.t) : FieldDefinition :=
  {| kind := FieldKind.FUNCTION; valueType := v;
     allowTextOperators := None |}.

Definition sample_fields : gmap string FieldDefinition :=
  {[ "count" := function (Some FieldValueType.NUMBER);
     "apdex" := function (Some FieldValueType.NUMBER);
     "p95" := function None;
     "last_seen" := function (Some FieldValueType.DATE);
     "transaction.duration" := field FieldValueType.DURATION;
     "timestamp" := field FieldValueType.DATE;
     "error.handled" := field FieldValueType.BOOLEAN;
     "stack.colno" := field FieldValueType.NUMBER;
     "message" := field FieldValueType.STRING ]}.

Definition sample_aggregations : gmap string Aggregation :=
  {[ "count" :=
       {| parameters := [ParamColumn (ColumnTypesFn (fun _ _ => true)) false] |};
     "apdex" := {| parameters := [ParamValue FieldValueType.NUMBER false] |};
     "p95" :=
       {| parameters :=
            [ParamColumn
               (ColumnTypesList [FieldValueType.DURATION;
                                 FieldValueType.NUMBER;
                                 FieldValueType.PERCENTAGE])
               true] |} ]}.

(** [getKeyName] of ./utils without options: the value of a simple key,
    of the key of an explicit tag, of the name of an aggregate. *)
Definition sample_getKeyName (key : Key) : string :=
  match key with
  | KSimple k => KeySimple.value k
  | KExplicitTag k => KeySimple.value (KeyExplicitTag.key k)
  | KAggregate k => KeySimple.value (KeyAggregate.name k)
  end.

#[local] Instance sample_catalog : Imports := {|
  getFieldDefinition := fun key => sample_fields !! key;
  AGGREGATIONS := sample_aggregations;
  isMeasurement := String.prefix "measurements.";
  isSpanOperationBreakdownField := String.prefix "spans.";
  measurementType := fun key =>
    if includes ["measurements.fcp"; "measurements.lcp"] key
    then "duration" else "number";
  FIELDS :=
    ["count"; "apdex"; "p95"; "last_seen"; "transaction.duration";
     "timestamp"; "error.handled"; "stack.colno"; "message"];
  getKeyName := sample_getKeyName;
  nowISOString := "2022-08-15T10:30:00.000Z";
|}.

Definition no_location : LocationRange :=
  {| loc_start := {| offset := 0; line := 1; column := 1 |};
     loc_end := {| offset := 0; line := 1; column := 1 |} |}.

(** A converter in the middle of a parse with the default configuration
    of the sample catalog. *)
Definition sample_converter (text : string) : TokenConverter :=
  {| tc_text := text; tc_location := no_location;
     tc_config := defaultConfig |}.

Definition simple_key (name : string) : KeySimple.t :=
  tokenKeySimple (sample_converter name) name false.

Definition param (value : string) : ListEntry KeyAggregateParam.t :=
  {| separator := "";
     entry := Some {| KeyAggregateParam.text := value;
                      KeyAggregateParam.location := no_location;
                      KeyAggregateParam.value := value;
                      KeyAggregateParam.quoted := false |} |}.

Definition spaces (value : string) : Spaces.t :=
  {| Spaces.text := value; Spaces.location := no_location;
     Spaces.value := value |}.

(** The key [name(arg, ...)]; without arguments [args] is [null]. *)
Definition aggregate_key (name : string) (arguments : list string)
  : KeyAggregate.t :=
  {| KeyAggregate.text := name +:+ "(" +:+ join "," arguments +:+ ")";
     KeyAggregate.location := no_location;
     KeyAggregate.name := simple_key name;
     KeyAggregate.args :=
       match arguments with
       | [] => None
       | _ => Some {| KeyAggregateArgs.text := join "," arguments;
                      KeyAggregateArgs.location := no_location;
                      KeyAggregateArgs.args := map param arguments |}
       end;
     KeyAggregate.argsSpaceBefore := spaces "";
     KeyAggregate.argsSpaceAfter := spaces "" |}.

Definition text_value (value : string) (quoted : bool) : ValueText.t :=
  tokenValueText (sample_converter value) value quoted.

(** A small instance of the term rules: runs of spaces, quoted free text
    (which needs its closing quote), text filters [key:value] with a
    simple key, and free text. *)
Fixpoint span_while (p : ascii -> bool) (s : string) : nat :=
  match s with
  | String c r => if p c then S (span_while p r) else 0
  | EmptyString => 0
  end.

Fixpoint find_char (c : ascii) (s : string) : option nat :=
  match s with
  | EmptyString => None
  | String d r => if Ascii.eqb c d then Some 0 else S <$> find_char c r
  end.

Definition string_drop (n : nat) (s : string) : string :=
  String.substring n (String.length s - n) s.

Definition is_space (c : ascii) : bool := Ascii.eqb c " "%char.

Definition sample_rule (config : SearchConfig) (input : string)
    (start : nat) : option (nat * TermShape) :=
  let rest := string_drop start input in
  match rest with
  | EmptyString => None
  | String c tail =>
      if is_space c then
        let n := span_while is_space rest in
        Some (start + n, ShapeSpaces (String.substring 0 n rest))
      else if Ascii.eqb c dquote then
        match find_char dquote tail with
        | Some n =>
            Some (start + n + 2, ShapeFreeText (String.substring 0 n tail) true)
        | None => None
        end
      else
        let n := span_while (fun c => negb (is_space c)) rest in
        let word := String.substring 0 n rest in
        match find_char ":"%char word with
        | Some (S k) =>
            let key :=
              tokenKeySimple
                (converter_at config input start (start + S k))
                (String.substring 0 (S k) word) false in
            let value :=
              tokenValueText
                (converter_at config input (start + S k + 1) (start + n))
                (string_drop (S k + 1) word) false in
            if predicateFilter (converter_at config input start (start + n))
                 FilterType.Text (KSimple key)
            then Some (start + n,
                       ShapeFilter FilterType.Text (TextKeySimple key) value
                         None false)
            else None
        | _ => Some (start + n, ShapeFreeText word false)
        end
  end.

Definition sample_parse : string -> SearchConfig -> outcome ParseResult :=
  grammar_parse sample_rule.

(** Modelled from the spec: the boolean value rule of the grammar
    (grammar.pegjs) is not under src/.  The tokens read as a boolean value
    are 1, 0, true and false, without regard to case. *)
Definition parses_as_boolean (raw : string) : bool :=
  includes ["1"; "0"; "true"; "false"] (toLowerCase raw).

(** The key of an aggregate filter at its type [keyT]. *)
Definition aggregate_keyT {R : JSRuntime} (a : AggregateFilter.t)
  : KeyAggregate.t -> keyT a :=
  match a with
  | AggregateFilter.AggregateDate | AggregateFilter.AggregateDuration
  | AggregateFilter.AggregateNumeric | AggregateFilter.AggregatePercentage
  | AggregateFilter.AggregateRelativeDate => fun key => key
  end.

(** The admission rule for [AggregateDuration] with the key name and the
    arguments as alternatives: the key is a function, and [isDuration]
    holds of the key name or of some argument. *)
Definition admits_by_name_or_argument {I : Imports} (tc : TokenConverter)
    (key : Key) : Prop :=
  keyIsAggregate (getKeyName key) = true
  ∧ (isDuration tc (getKeyName key) = true
     ∨ ∃ args arg, key_args key = Some args ∧ arg ∈ args
                   ∧ isDuration tc (arg_value_or_empty arg) = true).

(** The reason for a value argument of the wrong type, with the word
    argument spelled in full. *)
Definition value_type_reason (keyName : string) (position : nat)
    (dataType : ColumnType) : string :=
  keyName +:+ " expects argument " +:+ pretty position
  +:+ " to be of type " +:+ FieldValueType.to_string dataType.

(** The operators [getValidOps] computes from the single type [f]. *)
Definition valid_ops_of (f : FilterType.t) : list TermOperator.t :=
  new_Set
    (concat
       (map (fun type => validOps (filterTypeConfig type))
          (new_Set
             ([f]
              ++ concat
                   (map (fun type =>
                           default [] (interchangeableFilterOperators type))
                      [f]))))).

(** Sample tokens. *)
Definition date_value (text : string) : ValueIso8601Date.t :=
  {| ValueIso8601Date.text := text; ValueIso8601Date.location := no_location;
     ValueIso8601Date.value := moment text |}.

Definition text_list (items : list (option string)) : ValueTextList.t :=
  {| ValueTextList.text := "";
     ValueTextList.location := no_location;
     ValueTextList.items :=
       map (fun item =>
              {| separator := ","; entry := (fun v => text_value v false) <$> item |})
         items |}.

Definition number_list (items : list (option string)) : ValueNumberList.t :=
  {| ValueNumberList.text := "";
     ValueNumberList.location := no_location;
     ValueNumberList.items :=
       map (fun item =>
              {| separator := ",";
                 entry := (fun v => tokenValueNumber (sample_converter v) v "")
                          <$> item |})
         items |}.

(** The filter [timestamp:>=2023-01-01T00:00:00Z]. *)
Definition sample_date_filter : FilterToken :=
  tokenFilter (sample_converter "timestamp:>=2023-01-01T00:00:00Z")
    FilterType.Date (simple_key "timestamp")
    (date_value "2023-01-01T00:00:00Z")
    (Some TermOperator.GreaterThanEqual) false.

(** The terms of a query under the sample term rules; no terms when the
    query does not parse. *)
Definition parsed (query : string) : ParseResult :=
  match parseSearch sample_parse query with
  | Returned (Some terms) => terms
  | _ => []
  end.

Definition sample_terms : ParseResult :=
  Eval vm_compute in parsed "transaction.duration:hello  AND message:x".

Definition sample_invalid_terms : ParseResult :=
  Eval vm_compute in parsed "transaction.duration:hello world".

(** ** Query strings of the search bar (smartSearchBar/utils) *)

(** [query[query.length - 1]]: the last character, [undefined] on the
    empty string. *)
Definition last_char (query : string) : option ascii :=
  match String.length query with
  | 0 => None
  | S n => String.get n query
  end.

(** [addSpace(query = '')]: an omitted query is the empty string. *)
Definition addSpace (query : option string) : string :=
  let query := default "" query in
  if negb (String.length query =? 0)%nat
     && negb (bool_decide (last_char query = Some " "%char))
  then query +:+ " "
  else query.

(** [removeSpace(query = '')] *)
Definition removeSpace (query : option string) : string :=
  let query := default "" query in
  if bool_decide (last_char query = Some " "%char)
  then String.substring 0 (String.length query - 1) query
  else query.

(** [numProvidedArguments] of [checkInvalidAggregateFilter]:
    [key.args?.args?.length ?? 0]. *)
Definition numProvidedArguments (key : KeyAggregate.t) : nat :=
  match KeyAggregate.args key with
  | Some args => length (KeyAggregateArgs.args args)
  | None => 0
  end.

(** The types [getValidOps] starts from:
    [filterToken.invalid?.expectedType ?? [filterToken.filter]]. *)
Definition validTypes {R : JSRuntime} (filterToken : FilterToken)
  : list FilterType.t :=
  default [filter filterToken] (invalid filterToken ≫= expectedType).

(** The value [500ms] of a duration filter. *)
Definition duration_value {R : JSRuntime} (digits unit : string)
  : ValueDuration.t :=
  {| ValueDuration.text := digits +:+ unit;
     ValueDuration.location := no_location;
     ValueDuration.value := Number digits;
     ValueDuration.unit := unit |}.

(** The value types an aggregate filter type asks of the function: the
    type a key set of the default configuration is built from. *)
Definition family (filterType : AggregateFilter.t)
  : list FieldValueType.t :=
  match filterType with
  | AggregateFilter.AggregateRelativeDate | AggregateFilter.AggregateDate =>
      [FieldValueType.DATE]
  | AggregateFilter.AggregateDuration => [FieldValueType.DURATION]
  | AggregateFilter.AggregatePercentage => [FieldValueType.PERCENTAGE]
  | AggregateFilter.AggregateNumeric =>
      [FieldValueType.NUMBER; FieldValueType.INTEGER]
  end.

(** The filter types of a single typed value or of a list of numbers on
    a simple key, the ones [predicateFilter] tests against the type of
    the key. *)
Definition typed_filters : list FilterType.t :=
  [FilterType.Numeric; FilterType.NumericIn; FilterType.Duration;
   FilterType.Boolean; FilterType.Date; FilterType.RelativeDate;
   FilterType.SpecificDate].

(** ** Lists of the converter *)

(** [ListItem<V>]: what the grammar matches for an element of a list
    after the first: spaces, the comma, spaces, and the value, [null]
    when the element is missing (the fourth component of the tuple is
    always [undefined]). *)
Record ListItem (V : Type) := {
  item_space1 : Spaces.t;
  item_comma : string;
  item_space2 : Spaces.t;
  item_value : option V;
}.
Arguments item_space1 {V} _.
Arguments item_comma {V} _.
Arguments item_space2 {V} _.
Arguments item_value {V} _.

Definition listJoiner {V : Type} (item : ListItem V) : ListEntry V :=
  {| separator :=
       join "" [Spaces.value (item_space1 item); item_comma item;
                Spaces.value (item_space2 item)];
     entry := item_value item |}.

Definition tokenValueTextList (tc : TokenConverter) (item1 : ValueText.t)
    (items : list (ListItem ValueText.t)) : ValueTextList.t :=
  {| ValueTextList.text := tc_text tc;
     ValueTextList.location := tc_location tc;
     ValueTextList.items :=
       {| separator := ""; entry := Some item1 |} :: map listJoiner items |}.

Definition tokenValueNumberList {R : JSRuntime} (tc : TokenConverter)
    (item1 : ValueNumber.t) (items : list (ListItem ValueNumber.t))
  : ValueNumberList.t :=
  {| ValueNumberList.text := tc_text tc;
     ValueNumberList.location := tc_location tc;
     ValueNumberList.items :=
       {| separator := ""; entry := Some item1 |} :: map listJoiner items |}.

Definition tokenKeyAggregateParam (tc : TokenConverter) (value : string)
    (quoted : bool) : KeyAggregateParam.t :=
  {| KeyAggregateParam.text := tc_text tc;
     KeyAggregateParam.location := tc_location tc;
     KeyAggregateParam.value := value;
     KeyAggregateParam.quoted := quoted |}.

Definition tokenKeyAggregateArgs (tc : TokenConverter)
    (arg1 : KeyAggregateParam.t)
    (args : list (ListItem KeyAggregateParam.t)) : KeyAggregateArgs.t :=
  {| KeyAggregateArgs.text := tc_text tc;
     KeyAggregateArgs.location := tc_location tc;
     KeyAggregateArgs.args :=
       {| separator := ""; entry := Some arg1 |} :: map listJoiner args |}.

Definition tokenKeyAggregate (tc : TokenConverter) (name : KeySimple.t)
    (args : option KeyAggregateArgs.t)
    (argsSpaceBefore argsSpaceAfter : Spaces.t) : KeyAggregate.t :=
  {| KeyAggregate.text := tc_text tc;
     KeyAggregate.location := tc_location tc;
     KeyAggregate.name := name;
     KeyAggregate.args := args;
     KeyAggregate.argsSpaceBefore := argsSpaceBefore;
     KeyAggregate.argsSpaceAfter := argsSpaceAfter |}.

(** A list element [, value] or a missing one [,]. *)
Definition list_item {V : Type} (value : option V) : ListItem V :=
  {| item_space1 := spaces ""; item_comma := ","; item_space2 := spaces " ";
     item_value := value |}.

(** A catalog with the aggregate [epm], which takes no parameters and has
    no value type, and a converter in the middle of [epm(transaction):>5]
    under its default configuration. *)
Definition rate_catalog : Imports :=
  {| getFieldDefinition := fun key =>
       if String.eqb key "epm" then Some (function None) else None;
     AGGREGATIONS := {[ "epm" := {| parameters := [] |} ]};
     isMeasurement := fun _ => false;
     isSpanOperationBreakdownField := fun _ => false;
     measurementType := fun _ => "number";
     FIELDS := ["epm"];
     getKeyName := sample_getKeyName;
     nowISOString := "2022-08-15T10:30:00.000Z" |}.

Definition rate_converter : TokenConverter :=
  {| tc_text := "epm"; tc_location := no_location;
     tc_config := @defaultConfig rate_catalog |}.

(** ** Search items of the search bar (smartSearchBar/utils)

    [SearchItem] is declared in ./types, which is not under src/: the
    three properties [filterSearchItems] reads are fields here, all the
    others are carried along in [rest].  A missing property is [None];
    [value] is also [None] when it is [null].  The two numbers of
    [filterSearchItems] are integers. *)
Module SearchItem.
#[warnings="-register-all"]
Inductive t (Rest : Type) := mk {
  value : option string;
  children : option (list (t Rest));
  ignoreMaxSearchItems : option bool;
  rest : Rest;
}.
Arguments mk {Rest} _ _ _ _.
Arguments value {Rest} _.
Arguments children {Rest} _.
Arguments ignoreMaxSearchItems {Rest} _.
Arguments rest {Rest} _.
End SearchItem.

(** [Array.prototype.filter] with the index as second argument. *)
Fixpoint filter_indexed {A : Type} (keep : A -> nat -> bool) (index : nat)
    (l : list A) : list A :=
  match l with
  | [] => []
  | x :: r =>
      if keep x index then x :: filter_indexed keep (S index) r
      else filter_indexed keep (S index) r
  end.

(** The UTF-16 code units a byte of a UTF-8 text stands for: one for a
    byte that starts a character of at most three bytes, two for a byte
    that starts one of four bytes (a surrogate pair), none for a
    continuation byte. *)
Definition code_units (c : ascii) : nat :=
  let byte := nat_of_ascii c in
  if (byte <? 128)%nat then 1
  else if (byte <? 192)%nat then 0
  else if (byte <? 240)%nat then 1
  else 2.

(** [value.length]: the number of UTF-16 code units of a text held as
    its UTF-8 bytes. *)
Fixpoint utf16_length (s : string) : nat :=
  match s with
  | EmptyString => 0
  | String c rest => code_units c + utf16_length rest
  end.

(** [!value || value.length <= queryCharsLeft] *)
Definition fits (queryCharsLeft : Z) (value : option string) : bool :=
  falsy value
  || (Z.of_nat (utf16_length (default "" value)) <=? queryCharsLeft)%Z.

(** [index < maxSearchItems || value.ignoreMaxSearchItems] *)
Definition within_max {Rest : Type} (maxSearchItems : Z)
    (value : SearchItem.t Rest) (index : nat) : bool :=
  (Z.of_nat index <? maxSearchItems)%Z
  || default false (SearchItem.ignoreMaxSearchItems value).

(** The callback of the [flatMap] of [filterSearchItems]. *)
Definition filter_children {Rest : Type} (queryCharsLeft : Z)
    (item : SearchItem.t Rest) : list (SearchItem.t Rest) :=
  match SearchItem.children item with
  | None =>
      if fits queryCharsLeft (SearchItem.value item) then [item] else []
  | Some children =>
      let newItem :=
        {| SearchItem.value := SearchItem.value item;
           SearchItem.children :=
             Some (List.filter
                     (fun child => fits queryCharsLeft (SearchItem.value child))
                     children);
           SearchItem.ignoreMaxSearchItems :=
             SearchItem.ignoreMaxSearchItems item;
           SearchItem.rest := SearchItem.rest item |} in
      if (length (default [] (SearchItem.children newItem)) =? 0)%nat then []
      else [newItem]
  end.

Definition filterSearchItems {Rest : Type}
    (searchItems : list (SearchItem.t Rest))
    (recentSearchItems : option (list (SearchItem.t Rest)))
    (maxSearchItems queryCharsLeft : option Z)
  : list (SearchItem.t Rest) * option (list (SearchItem.t Rest)) :=
  let searchItems :=
    match maxSearchItems with
    | Some m =>
        if (0 <? m)%Z then filter_indexed (within_max m) 0 searchItems
        else searchItems
    | None => searchItems
    end in
  match queryCharsLeft with
  | Some q =>
      let searchItems := flat_map (filter_children q) searchItems in
      let searchItems :=
        List.filter (fun value => fits q (SearchItem.value value))
          searchItems in
      (searchItems,
       List.filter (fun value => fits q (SearchItem.value value))
       <$> recentSearchItems)
  | None => (searchItems, recentSearchItems)
  end.

(** The two filters on the characters left, item by item. *)
Definition fit_item {Rest : Type} (queryCharsLeft : Z)
    (item : SearchItem.t Rest) : list (SearchItem.t Rest) :=
  List.filter (fun value => fits queryCharsLeft (SearchItem.value value))
    (filter_children queryCharsLeft item).

(** Every item of a list, counted from an index, is within the
    maximum. *)
Fixpoint all_within_max {Rest : Type} (maxSearchItems : Z) (index : nat)
    (items : list (SearchItem.t Rest)) : Prop :=
  match items with
  | [] => True
  | item :: more =>
      within_max maxSearchItems item index = true
      ∧ all_within_max maxSearchItems (S index) more
  end.

(** The items the maximum counts: those without [ignoreMaxSearchItems]. *)
Definition counted {Rest : Type} (items : list (SearchItem.t Rest))
  : list (SearchItem.t Rest) :=
  List.filter
    (fun item => negb (default false (SearchItem.ignoreMaxSearchItems item)))
    items.

(** Sample search items. *)
Definition search_item (value : string) (ignore : bool)
  : SearchItem.t unit :=
  {| SearchItem.value := Some value; SearchItem.children := None;
     SearchItem.ignoreMaxSearchItems := Some ignore;
     SearchItem.rest := tt |}.

Definition search_group (children : list (SearchItem.t unit))
  : SearchItem.t unit :=
  {| SearchItem.value := None; SearchItem.children := Some children;
     SearchItem.ignoreMaxSearchItems := None; SearchItem.rest := tt |}.
(** ** Search groups (smartSearchBar/utils)

    [ItemType] is declared in ./types, which is not under src/: the
    members [createSearchGroups] compares with are parameters. *)
Class ItemTypes := {
  ItemType : Type;
  ItemType_eq_dec :: EqDecision ItemType;
  TAG_VALUE : ItemType;
  RECENT_SEARCH : ItemType;
  DEFAULT : ItemType;
  TAG_OPERATOR : ItemType;
  PROPERTY : ItemType;
  INVALID_TAG : ItemType;
}.

(** The icons, all of size xs. *)
Inductive Icon := IconClock | IconStar | IconToggle | IconUser | IconTag.

(** The type of a group: an item type or the string header. *)
Inductive GroupType {T : ItemTypes} := Header | OfItemType (type : ItemType).

Module SearchGroup.
Record t {T : ItemTypes} (Rest : Type) := mk {
  title : string;
  type : GroupType;
  icon : Icon;
  children : list (SearchItem.t Rest);
}.
Arguments mk {T Rest} _ _ _ _.
Arguments title {T Rest} _.
Arguments type {T Rest} _.
Arguments icon {T Rest} _.
Arguments children {T Rest} _.
End SearchGroup.

Definition getTitleForType {T : ItemTypes} (type : ItemType) : string :=
  if decide (type = TAG_VALUE) then t "Values" []
  else if decide (type = RECENT_SEARCH) then t "Recent Searches" []
  else if decide (type = DEFAULT) then t "Common Search Terms" []
  else if decide (type = TAG_OPERATOR) then t "Operator Helpers" []
  else if decide (type = PROPERTY) then t "Properties" []
  else t "Keys" [].

Definition getIconForTypeAndTag {T : ItemTypes} (type : ItemType)
    (tagName : string) : Icon :=
  if decide (type = RECENT_SEARCH) then IconClock
  else if decide (type = DEFAULT) then IconStar
  else if String.eqb tagName "is" then IconToggle
  else if String.eqb tagName "assigned" || String.eqb tagName "bookmarks"
  then IconUser
  else if String.eqb tagName "firstSeen" || String.eqb tagName "lastSeen"
          || String.eqb tagName "event.timestamp"
  then IconClock
  else IconTag.

Record SearchGroups {T : ItemTypes} (Rest : Type) := {
  searchGroups : list (SearchGroup.t Rest);
  flatSearchItems : list (SearchItem.t Rest);
  activeSearchItem : Z;
}.
Arguments searchGroups {T Rest} _.
Arguments flatSearchItems {T Rest} _.
Arguments activeSearchItem {T Rest} _.

(** The callback of the [flatMap] of [createSearchGroups]: an item is
    followed by its children, and left out itself when it has children
    and no value. *)
Definition flatten_item {Rest : Type} (item : SearchItem.t Rest)
  : list (SearchItem.t Rest) :=
  match SearchItem.children item with
  | Some children =>
      if falsy (SearchItem.value item) then children else item :: children
  | None => [item]
  end.

Definition createSearchGroups {T : ItemTypes} {Rest : Type}
    (searchItems : list (SearchItem.t Rest))
    (recentSearchItems : option (list (SearchItem.t Rest)))
    (tagName : string) (type : ItemType)
    (maxSearchItems queryCharsLeft : option Z) (isDefaultState : option bool)
  : SearchGroups Rest :=
  let '(filteredSearchItems, filteredRecentSearchItems) :=
    filterSearchItems searchItems recentSearchItems maxSearchItems
      queryCharsLeft in
  let searchGroup :=
    {| SearchGroup.title := getTitleForType type;
       SearchGroup.type :=
         if decide (type = INVALID_TAG) then OfItemType type else Header;
       SearchGroup.icon := getIconForTypeAndTag type tagName;
       SearchGroup.children := filteredSearchItems |} in
  let recentSearchGroup :=
    match filteredRecentSearchItems with
    | Some recent =>
        if (0 <? length recent)%nat
        then Some {| SearchGroup.title := t "Recent Searches" [];
                     SearchGroup.type := Header;
                     SearchGroup.icon := IconClock;
                     SearchGroup.children := recent |}
        else None
    | None => None
    end in
  let flatSearchItems := flat_map flatten_item filteredSearchItems in
  if default false isDefaultState then
    (* Recent searches first in default state. *)
    {| searchGroups := option_list recentSearchGroup ++ [searchGroup];
       flatSearchItems := default [] recentSearchItems ++ flatSearchItems;
       activeSearchItem := (-1)%Z |}
  else
    {| searchGroups := searchGroup :: option_list recentSearchGroup;
       flatSearchItems := flatSearchItems ++ default [] recentSearchItems;
       activeSearchItem := (-1)%Z |}.

(** Sample item types. *)
Inductive SampleItemType :=
| SampleDefault | SampleRecentSearch | SampleTagKey | SampleTagValue
| SampleTagOperator | SampleProperty | SampleInvalidTag.

#[local] Instance SampleItemType_eq_dec : EqDecision SampleItemType.
Proof. solve_decision. Defined.

#[local] Instance sample_item_types : ItemTypes := {|
  ItemType := SampleItemType;
  TAG_VALUE := SampleTagValue;
  RECENT_SEARCH := SampleRecentSearch;
  DEFAULT := SampleDefault;
  TAG_OPERATOR := SampleTagOperator;
  PROPERTY := SampleProperty;
  INVALID_TAG := SampleInvalidTag;
|}.

(** An item of a list of texts that is null or empty, in the words of
    the specification: nothing stands at its place in the list, or the
    text that stands there is the empty text. *)
Definition null_or_empty (item : ListEntry ValueText.t) : Prop :=
  match entry item with
  | None => True
  | Some value => ValueText.value value = ""
  end.

(** The list of two texts whose first item is the empty text in quotes
    and whose second item is [a]. *)
Definition quoted_empty_list : ValueTextList.t :=
  {| ValueTextList.text := "";
     ValueTextList.location := no_location;
     ValueTextList.items :=
       [ {| separator := "";
            entry :=
              Some (tokenValueText
                      (sample_converter
                         (String dquote (String dquote EmptyString)))
                      "" true) |};
         {| separator := ","; entry := Some (text_value "a" false) |} ] |}.

(** * Properties *)

(** ** Strings *)

Lemma includes_true (l : list string) (s : string) :
  includes l s = true ↔ s ∈ l.
Proof.
  unfold includes. rewrite existsb_exists. split.
  - intros (x & Hx & Heq). apply String.eqb_eq in Heq. subst.
    by apply list_elem_of_In.
  - intros Hs. exists s. split; [by apply list_elem_of_In|].
    apply String.eqb_refl.
Qed.

Lemma append_cons (c : ascii) (s r : string) :
  String c s +:+ r = String c (s +:+ r).
Proof. reflexivity. Qed.

Lemma append_empty_r (s : string) : s +:+ "" = s.
Proof.
  induction s as [|c s IH]; [done | by rewrite append_cons, IH].
Qed.

Lemma concat_empty_cons (x : string) (l : list string) :
  String.concat "" (x :: l) = x +:+ String.concat "" l.
Proof.
  destruct l as [|y l]; simpl.
  - by rewrite append_empty_r.
  - reflexivity.
Qed.

Lemma substring_zero (n : nat) (s : string) : String.substring n 0 s = "".
Proof.
  revert n. induction s as [|c s IH]; intros [|n]; simpl; auto.
Qed.

Lemma substring_split (s : string) (start stop : nat) :
  (start ≤ stop)%nat → (stop ≤ String.length s)%nat →
  String.substring start (stop - start) s
  +:+ String.substring stop (String.length s - stop) s
  = String.substring start (String.length s - start) s.
Proof.
  revert start stop. induction s as [|c s IH]; intros start stop Hle Hlen.
  - simpl in *. by destruct start, stop.
  - destruct start as [|start].
    + destruct stop as [|stop].
      * reflexivity.
      * simpl. rewrite append_cons. f_equal. simpl in Hlen.
        specialize (IH 0 stop ltac:(lia) ltac:(lia)).
        rewrite !Nat.sub_0_r in IH. exact IH.
    + destruct stop as [|stop]; [lia|].
      simpl in *. apply IH; lia.
Qed.

Lemma substring_all (s : string) :
  String.substring 0 (String.length s) s = s.
Proof. induction s as [|c s IH]; simpl; [done | by rewrite IH]. Qed.

(** ** The set of an array *)

Lemma elem_of_new_Set_from {A : Type} `{EqDecision A} (seen l : list A)
    (x : A) :
  x ∈ new_Set_from seen l ↔ x ∈ l ∧ x ∉ seen.
Proof.
  revert seen. induction l as [|y l IH]; intros seen; simpl.
  - split; [by intros ?%elem_of_nil | by intros [?%elem_of_nil _]].
  - case_bool_decide as Hy.
    + rewrite IH. split.
      * intros [Hx Hn]. split; [by right | done].
      * intros [Hx Hn]. apply elem_of_cons in Hx as [->|Hx]; done.
    + rewrite elem_of_cons, IH. split.
      * intros [->|[Hx Hn]]; [split; [by left | done]|].
        split; [by right|]. intros Hs. apply Hn. by right.
      * intros [Hx Hn]. apply elem_of_cons in Hx as [->|Hx]; [by left|].
        destruct (decide (x = y)) as [->|Hne]; [by left | right].
        split; [done|]. intros Hs. apply elem_of_cons in Hs as [->|Hs]; done.
Qed.

Lemma elem_of_new_Set {A : Type} `{EqDecision A} (l : list A) (x : A) :
  x ∈ new_Set l ↔ x ∈ l.
Proof.
  unfold new_Set. rewrite elem_of_new_Set_from.
  split; [by intros [? _] | intros ?; split; [done | apply not_elem_of_nil]].
Qed.

(** ** Value tokens *)

(** C7.  The boolean stored by [tokenValueBoolean] is true if and only if
    the raw token, lowercased, is 1 or true; a token that parses as a
    boolean and is neither of the two (0, false, in any case) yields
    false. *)
Theorem tokenValueBoolean_true_iff (tc : TokenConverter) (raw : string) :
  (ValueBoolean.value (tokenValueBoolean tc raw) = true
   ↔ toLowerCase raw = "1" ∨ toLowerCase raw = "true")
  ∧ (parses_as_boolean raw = true →
     toLowerCase raw ≠ "1" → toLowerCase raw ≠ "true" →
     ValueBoolean.value (tokenValueBoolean tc raw) = false
     ∧ (toLowerCase raw = "0" ∨ toLowerCase raw = "false")).
Proof.
  assert (Hiff : ValueBoolean.value (tokenValueBoolean tc raw) = true
                 ↔ toLowerCase raw = "1" ∨ toLowerCase raw = "true").
  { change (ValueBoolean.value (tokenValueBoolean tc raw))
      with (includes ["1"; "true"] (toLowerCase raw)).
    rewrite includes_true, !elem_of_cons, elem_of_nil. tauto. }
  split; [exact Hiff|].
  intros Hp H1 Ht. split.
  - apply not_true_iff_false. rewrite Hiff. tauto.
  - unfold parses_as_boolean in Hp.
    rewrite includes_true, !elem_of_cons, elem_of_nil in Hp. tauto.
Qed.

Lemma tokenValueBoolean_true_iff_witness :
  ValueBoolean.value (tokenValueBoolean (sample_converter "FALSE") "FALSE")
  = false
  ∧ ValueBoolean.value (tokenValueBoolean (sample_converter "0") "0") = false
  ∧ ValueBoolean.value (tokenValueBoolean (sample_converter "false") "false")
    = false.
Proof.
  split; [|split].
  - apply (tokenValueBoolean_true_iff (sample_converter "FALSE") "FALSE");
      [reflexivity | discriminate | discriminate].
  - apply (tokenValueBoolean_true_iff (sample_converter "0") "0");
      [reflexivity | discriminate | discriminate].
  - apply (tokenValueBoolean_true_iff (sample_converter "false") "false");
      [reflexivity | discriminate | discriminate].
Defined.

Example tokenValueBoolean_examples :
  map (fun raw => ValueBoolean.value (tokenValueBoolean (sample_converter raw) raw))
    ["1"; "true"; "TRUE"; "True"; "0"; "false"; "FALSE"]
  = [true; true; true; true; false; false; false].
Proof. reflexivity. Qed.

Lemma numberUnits_lookup (unit : string) :
  numberUnits !! unit
  = if decide (unit = "b") then Some 1000000000%Z
    else if decide (unit = "m") then Some 1000000%Z
    else if decide (unit = "k") then Some 1000%Z
    else None.
Proof.
  unfold numberUnits.
  repeat case_decide; subst; simplify_map_eq; reflexivity.
Qed.

(** C8.  The raw value of a number token is the numeric value of its
    digits multiplied by 1000 for the suffix k, by 1000000 for m and by
    1000000000 for b; without a suffix the multiplier is 1 and the raw
    value is the numeric value unchanged.  The runtime is any in which
    multiplying by 1 changes nothing. *)
Theorem tokenValueNumber_rawValue {R : JSRuntime}
    (number_mul_1_r : ∀ x : number, number_mul x (number_of_Z 1) = x)
    (tc : TokenConverter) (value : string) :
  ValueNumber.rawValue (tokenValueNumber tc value "k")
  = number_mul (Number value) (number_of_Z 1000)
  ∧ ValueNumber.rawValue (tokenValueNumber tc value "m")
    = number_mul (Number value) (number_of_Z 1000000)
  ∧ ValueNumber.rawValue (tokenValueNumber tc value "b")
    = number_mul (Number value) (number_of_Z 1000000000)
  ∧ ValueNumber.rawValue (tokenValueNumber tc value "") = Number value.
Proof.
  cbn [ValueNumber.rawValue tokenValueNumber].
  rewrite !numberUnits_lookup. cbn.
  split; [reflexivity|]. split; [reflexivity|]. split; [reflexivity|].
  apply number_mul_1_r.
Qed.

Lemma decimal_mul_1_r (x : option Qc) :
  decimal_mul x (Some (Q2Qc (inject_Z 1))) = x.
Proof.
  destruct x as [q|]; [|reflexivity]. simpl. f_equal.
  apply Qc_is_canon. simpl. rewrite Qred_correct. apply Qmult_1_r.
Qed.

Lemma tokenValueNumber_rawValue_witness :
  ValueNumber.rawValue (tokenValueNumber (sample_converter "1k") "1" "k")
  = Some (Q2Qc (inject_Z 1000))
  ∧ ValueNumber.rawValue (tokenValueNumber (sample_converter "2.5m") "2.5" "m")
    = Some (Q2Qc (inject_Z 2500000))
  ∧ ValueNumber.rawValue (tokenValueNumber (sample_converter "3b") "3" "b")
    = Some (Q2Qc (inject_Z 3000000000))
  ∧ ValueNumber.rawValue (tokenValueNumber (sample_converter "42") "42" "")
    = Some (Q2Qc (inject_Z 42)).
Proof.
  pose proof (tokenValueNumber_rawValue decimal_mul_1_r) as H.
  split; [|split; [|split]].
  - rewrite (proj1 (H (sample_converter "1k") "1")).
    apply (f_equal Some), Qc_is_canon. reflexivity.
  - rewrite (proj1 (proj2 (H (sample_converter "2.5m") "2.5"))).
    apply (f_equal Some), Qc_is_canon. reflexivity.
  - rewrite (proj1 (proj2 (proj2 (H (sample_converter "3b") "3")))).
    apply (f_equal Some), Qc_is_canon. reflexivity.
  - rewrite (proj2 (proj2 (proj2 (H (sample_converter "42") "42")))).
    apply (f_equal Some), Qc_is_canon. reflexivity.
Defined.

(** ** Valid operators *)

Lemma interchangeable_only_dates (f : FilterType.t) :
  f ≠ FilterType.Date → f ≠ FilterType.SpecificDate →
  interchangeableFilterOperators f = None.
Proof. by destruct f. Qed.

Lemma getValidOps_valid {R : JSRuntime} (filterToken : FilterToken) :
  invalid filterToken = None →
  getValidOps filterToken = valid_ops_of (filter filterToken).
Proof. intros Hvalid. unfold getValidOps. by rewrite Hvalid. Qed.

(** C9.  For a valid filter token of type [Date] or [SpecificDate] the
    operators of [getValidOps] are the union of the valid operators of
    both types (all the operators); these two types are the only ones the
    table of interchangeable types merges: a valid token of any other
    type gets the operators of its own type alone. *)
Theorem getValidOps_interchangeable_dates {R : JSRuntime}
    (filterToken : FilterToken) :
  invalid filterToken = None →
  (filter filterToken = FilterType.Date
   ∨ filter filterToken = FilterType.SpecificDate →
   getValidOps filterToken = allOperators
   ∧ ∀ op, op ∈ getValidOps filterToken
           ↔ op ∈ validOps (filterTypeConfig FilterType.Date)
             ∨ op ∈ validOps (filterTypeConfig FilterType.SpecificDate))
  ∧ (filter filterToken ≠ FilterType.Date →
     filter filterToken ≠ FilterType.SpecificDate →
     interchangeableFilterOperators (filter filterToken) = None
     ∧ getValidOps filterToken
       = new_Set (validOps (filterTypeConfig (filter filterToken)))
     ∧ ∀ op, op ∈ getValidOps filterToken
             ↔ op ∈ validOps (filterTypeConfig (filter filterToken))).
Proof.
  intros Hvalid. rewrite (getValidOps_valid _ Hvalid).
  generalize (filter filterToken). intros f. split.
  - intros Hdate.
    assert (Hops : valid_ops_of f = allOperators)
      by (destruct Hdate as [-> | ->]; reflexivity).
    split; [exact Hops|].
    intros op. rewrite Hops. simpl. rewrite elem_of_nil. tauto.
  - intros Hd Hs.
    assert (Hown : valid_ops_of f = new_Set (validOps (filterTypeConfig f)))
      by (destruct f; congruence || reflexivity).
    split; [by apply interchangeable_only_dates|].
    split; [exact Hown|].
    intros op. rewrite Hown. apply elem_of_new_Set.
Qed.

Lemma getValidOps_interchangeable_dates_witness :
  getValidOps sample_date_filter = allOperators.
Proof.
  exact (proj1 (proj1 (getValidOps_interchangeable_dates sample_date_filter
                         eq_refl)
                  (or_introl eq_refl))).
Defined.

(** ** In-lists *)

Lemma checkInvalidInFilter_spec {V : Type} (items : list (ListEntry V)) :
  ((∃ item, item ∈ items ∧ entry item = None) →
   checkInvalidInFilter items
   = Some {| reason := "Lists should not have empty values";
             expectedType := None |})
  ∧ ((∀ item, item ∈ items → entry item ≠ None) →
     checkInvalidInFilter items = None).
Proof.
  unfold checkInvalidInFilter. split.
  - intros (item & Hin & Hnull).
    assert (Hex : existsb
              (λ item, match entry item with None => true | _ => false end)
              items = true).
    { apply existsb_exists. exists item. split; [by apply list_elem_of_In|].
      by rewrite Hnull. }
    by rewrite Hex.
  - intros Hall.
    assert (Hex : existsb
              (λ item, match entry item with None => true | _ => false end)
              items = false).
    { apply not_true_iff_false. intros (item & Hin & Hnull)%existsb_exists.
      apply list_elem_of_In in Hin. specialize (Hall item Hin).
      by destruct (entry item). }
    by rewrite Hex.
Qed.

(** The verdict on a list is the reason exactly when an item is null,
    and null exactly when none is. *)
Lemma checkInvalidInFilter_iff {V : Type} (items : list (ListEntry V)) :
  (checkInvalidInFilter items
   = Some {| reason := "Lists should not have empty values";
             expectedType := None |}
   ↔ ∃ item, item ∈ items ∧ entry item = None)
  ∧ (checkInvalidInFilter items = None
     ↔ ∀ item, item ∈ items → entry item ≠ None).
Proof.
  destruct (checkInvalidInFilter_spec items) as [Hsome Hnone].
  assert (Hdec : (∃ item, item ∈ items ∧ entry item = None)
                 ∨ ∀ item, item ∈ items → entry item ≠ None).
  { clear. induction items as [|item items [(x & Hin & Hx) | Hall]].
    - right. by intros item ?%elem_of_nil.
    - left. exists x. split; [by right | done].
    - destruct (entry item) as [v|] eqn:Hentry.
      + right. intros x [-> | Hin]%elem_of_cons; [congruence | by apply Hall].
      + left. exists item. split; [apply list_elem_of_here | done]. }
  split; (split; [|done]).
  - intros Hverdict. destruct Hdec as [Hex | Hall]; [done|].
    rewrite (Hnone Hall) in Hverdict. discriminate.
  - intros Hverdict. destruct Hdec as [Hex | Hall]; [|done].
    rewrite (Hsome Hex) in Hverdict. discriminate.
Qed.

(** C6.  For a [TextIn] and for a [NumericIn] filter the invalid verdict
    is the reason that lists should not have empty values exactly when
    some item of the list is null (nothing stands at its place in the
    list), and it is null exactly when no item is null; an item that is
    present never makes the list invalid, whatever its text, the empty
    text included. *)
Theorem tokenFilter_in_lists {R : JSRuntime} {I : Imports}
    (tc : TokenConverter) (operator : option TermOperator.t)
    (negated : bool) :
  (∀ (key : keyT FilterType.TextIn) (value : valueT FilterType.TextIn),
     let verdict :=
       invalid (tokenFilter tc FilterType.TextIn key value operator negated)
     in
     (verdict = Some {| reason := "Lists should not have empty values";
                        expectedType := None |}
      ↔ ∃ item, item ∈ ValueTextList.items value ∧ entry item = None)
     ∧ (verdict = None
        ↔ ∀ item, item ∈ ValueTextList.items value → entry item ≠ None))
  ∧ (∀ (key : keyT FilterType.NumericIn)
       (value : valueT FilterType.NumericIn),
       let verdict :=
         invalid (tokenFilter tc FilterType.NumericIn key value operator
                    negated) in
       (verdict = Some {| reason := "Lists should not have empty values";
                          expectedType := None |}
        ↔ ∃ item, item ∈ ValueNumberList.items value ∧ entry item = None)
       ∧ (verdict = None
          ↔ ∀ item, item ∈ ValueNumberList.items value → entry item ≠ None)).
Proof.
  split; intros key value; apply checkInvalidInFilter_iff.
Qed.

Lemma tokenFilter_in_lists_witness :
  invalid (tokenFilter (sample_converter "message:[a,,b]") FilterType.TextIn
             (TextKeySimple (simple_key "message"))
             (text_list [Some "a"; None; Some "b"]) None false)
  = Some {| reason := "Lists should not have empty values";
            expectedType := None |}
  ∧ invalid (tokenFilter (sample_converter "stack.colno:[1,2]")
               FilterType.NumericIn (simple_key "stack.colno")
               (number_list [Some "1"; Some "2"]) None false)
    = None.
Proof.
  pose proof (tokenFilter_in_lists (sample_converter "message:[a,,b]")
                None false) as [Htext _].
  pose proof (tokenFilter_in_lists (sample_converter "stack.colno:[1,2]")
                None false) as [_ Hnum].
  split.
  - apply Htext. exists {| separator := ","; entry := None |}.
    split; [|reflexivity]. simpl.
    apply list_elem_of_further, list_elem_of_here.
  - apply Hnum. intros item Hin. simpl in Hin.
    apply elem_of_cons in Hin as [-> | Hin]; [discriminate|].
    apply elem_of_cons in Hin as [-> | Hin]; [discriminate|].
    by apply elem_of_nil in Hin.
Defined.

(** The claim with an empty item counted as an empty value fails: the
    first item of the list is the empty text in quotes, so the list has
    an item that is null or empty, yet the filter is not given the
    reason (its verdict is null). *)
Lemma tokenFilter_in_lists_null_or_empty_counterexample :
  let tc :=
    sample_converter
      ("message:[" +:+ String dquote (String dquote ",a]")) in
  let key : keyT FilterType.TextIn := TextKeySimple (simple_key "message") in
  ¬ ((∃ item, item ∈ ValueTextList.items quoted_empty_list
              ∧ null_or_empty item) →
     invalid (tokenFilter tc FilterType.TextIn key quoted_empty_list None
                false)
     = Some {| reason := "Lists should not have empty values";
               expectedType := None |}).
Proof.
  intros tc key Hclaim.
  assert (Hvalid : invalid (tokenFilter tc FilterType.TextIn key
                              quoted_empty_list None false) = None)
    by reflexivity.
  rewrite Hclaim in Hvalid; [discriminate|].
  eexists. split; [apply list_elem_of_here | reflexivity].
Qed.

(** An item that is present passes, also when its text is the empty
    quoted string: only a null item counts as an empty value. *)
Example tokenFilter_in_list_quoted_empty :
  invalid (tokenFilter (sample_converter "message:[(empty),a]")
             FilterType.TextIn (TextKeySimple (simple_key "message"))
             {| ValueTextList.text := "";
                ValueTextList.location := no_location;
                ValueTextList.items :=
                  [ {| separator := ""; entry := Some (text_value "" true) |};
                    {| separator := ",";
                       entry := Some (text_value "a" false) |} ] |}
             None false)
  = None.
Proof. reflexivity. Qed.

(** ** Text filters *)

(** C4.  For a filter that landed as [Text] on a simple key that is not a
    function: a duration key gets the duration reason with expected type
    [Duration]; the date, boolean and numeric keys get their hints in the
    same way, each when the types tested before it do not apply (the
    tests run in the order duration, date, boolean, numeric), so that a
    key of any of the four types gets a reason with an expected type.  An
    explicit tag key gets the text value check only. *)
Theorem tokenFilter_text_hints {R : JSRuntime} {I : Imports}
    (tc : TokenConverter) (k : KeySimple.t) (value : ValueText.t)
    (operator : option TermOperator.t) (negated : bool) :
  let keyName := getKeyName (KSimple k) in
  let verdict :=
    invalid (tokenFilter tc FilterType.Text (TextKeySimple k) value operator
               negated) in
  (keyIsAggregate keyName = false →
   (isDuration tc keyName = true →
    verdict
    = Some {| reason :=
                "Invalid duration. Expected number followed by duration unit suffix";
              expectedType := Some [FilterType.Duration] |})
   ∧ (isDuration tc keyName = false → isDate tc keyName = true →
      verdict
      = Some {| reason :=
                  "Invalid date format. Expected +/-duration (e.g. +1h) or ISO 8601-like (e.g. "
                  +:+ String.substring 0 10 nowISOString +:+ " or "
                  +:+ nowISOString +:+ ")";
                expectedType :=
                  Some [FilterType.Date; FilterType.SpecificDate;
                        FilterType.RelativeDate] |})
   ∧ (isDuration tc keyName = false → isDate tc keyName = false →
      isBoolean tc keyName = true →
      verdict
      = Some {| reason := "Invalid boolean. Expected true, 1, false, or 0.";
                expectedType := Some [FilterType.Boolean] |})
   ∧ (isDuration tc keyName = false → isDate tc keyName = false →
      isBoolean tc keyName = false → isNumeric tc keyName = true →
      verdict
      = Some {| reason :=
                  "Invalid number. Expected number then optional k, m, or b suffix (e.g. 500k)";
                expectedType :=
                  Some [FilterType.Numeric; FilterType.NumericIn] |})
   ∧ (isDuration tc keyName = true ∨ isDate tc keyName = true
      ∨ isBoolean tc keyName = true ∨ isNumeric tc keyName = true →
      ∃ reason types,
        verdict = Some {| reason := reason; expectedType := Some types |})
   ∧ (isDuration tc keyName = false → isDate tc keyName = false →
      isBoolean tc keyName = false → isNumeric tc keyName = false →
      verdict = checkInvalidTextValue value))
  ∧ ∀ tag : KeyExplicitTag.t,
      invalid (tokenFilter tc FilterType.Text (TextKeyExplicitTag tag) value
                 operator negated)
      = checkInvalidTextValue value.
Proof.
  intros keyName verdict. subst verdict. split; [|reflexivity].
  intros Hfield. cbn [invalid tokenFilter].
  unfold checkInvalidFilter, checkInvalidTextFilter.
  change (getKeyName (key_of_text_key (TextKeySimple k))) with keyName.
  rewrite Hfield. cbn [negb].
  split; [by intros ->|].
  split; [intros -> ->; f_equal|].
  split; [by intros -> -> ->|].
  split; [by intros -> -> -> ->|].
  split; [|by intros -> -> -> ->].
  intros Hsome.
  destruct (isDuration tc keyName); [by eexists _, _|].
  destruct (isDate tc keyName); [by eexists _, _|].
  destruct (isBoolean tc keyName); [by eexists _, _|].
  destruct (isNumeric tc keyName); [by eexists _, _|].
  by destruct Hsome as [? | [? | [? | ?]]].
Qed.

Lemma tokenFilter_text_hints_witness :
  invalid (tokenFilter (sample_converter "transaction.duration:hello")
             FilterType.Text
             (TextKeySimple (simple_key "transaction.duration"))
             (text_value "hello" true) None false)
  = Some {| reason :=
              "Invalid duration. Expected number followed by duration unit suffix";
            expectedType := Some [FilterType.Duration] |}
  ∧ invalid (tokenFilter (sample_converter "timestamp:soon") FilterType.Text
               (TextKeySimple (simple_key "timestamp"))
               (text_value "soon" false) None false)
    = Some {| reason :=
                "Invalid date format. Expected +/-duration (e.g. +1h) or ISO 8601-like (e.g. 2022-08-15 or 2022-08-15T10:30:00.000Z)";
              expectedType :=
                Some [FilterType.Date; FilterType.SpecificDate;
                      FilterType.RelativeDate] |}
  ∧ invalid (tokenFilter (sample_converter "error.handled:maybe")
               FilterType.Text (TextKeySimple (simple_key "error.handled"))
               (text_value "maybe" false) None false)
    = Some {| reason := "Invalid boolean. Expected true, 1, false, or 0.";
              expectedType := Some [FilterType.Boolean] |}
  ∧ invalid (tokenFilter (sample_converter "stack.colno:many")
               FilterType.Text (TextKeySimple (simple_key "stack.colno"))
               (text_value "many" false) None false)
    = Some {| reason :=
                "Invalid number. Expected number then optional k, m, or b suffix (e.g. 500k)";
              expectedType :=
                Some [FilterType.Numeric; FilterType.NumericIn] |}.
Proof.
  split; [|split; [|split]].
  - destruct (proj1 (tokenFilter_text_hints (I := sample_catalog)
                       (sample_converter "transaction.duration:hello")
                       (simple_key "transaction.duration")
                       (text_value "hello" true) None false)
                ltac:(vm_compute; reflexivity)) as (H & _).
    apply H; vm_compute; reflexivity.
  - destruct (proj1 (tokenFilter_text_hints (I := sample_catalog)
                       (sample_converter "timestamp:soon")
                       (simple_key "timestamp") (text_value "soon" false)
                       None false)
                ltac:(vm_compute; reflexivity)) as (_ & H & _).
    apply H; vm_compute; reflexivity.
  - destruct (proj1 (tokenFilter_text_hints (I := sample_catalog)
                       (sample_converter "error.handled:maybe")
                       (simple_key "error.handled")
                       (text_value "maybe" false) None false)
                ltac:(vm_compute; reflexivity)) as (_ & _ & H & _).
    apply H; vm_compute; reflexivity.
  - destruct (proj1 (tokenFilter_text_hints (I := sample_catalog)
                       (sample_converter "stack.colno:many")
                       (simple_key "stack.colno") (text_value "many" false)
                       None false)
                ltac:(vm_compute; reflexivity)) as (_ & _ & _ & H & _).
    apply H; vm_compute; reflexivity.
Defined.

(** ** Aggregate filters *)

Lemma checkInvalidFilter_aggregate {R : JSRuntime} {I : Imports}
    (tc : TokenConverter) (filterType : AggregateFilter.t)
    (key : KeyAggregate.t) (value : valueT filterType) :
  checkInvalidFilter tc filterType (aggregate_keyT filterType key) value
  = checkInvalidAggregateFilter tc filterType key value.
Proof. by destruct filterType. Qed.

(** C10.  For an aggregate filter whose value type coherence check
    passes and whose function name is not a key of [AGGREGATIONS], the
    invalid verdict is null whatever the arguments of the key are: no
    arity or argument type validation takes place. *)
Theorem tokenFilter_unknown_aggregate {R : JSRuntime} {I : Imports}
    (tc : TokenConverter) (filterType : AggregateFilter.t)
    (key : KeyAggregate.t) (value : valueT filterType)
    (operator : option TermOperator.t) (negated : bool) :
  checkInvalidAggregateFilterValue tc filterType key value = None →
  AGGREGATIONS !! KeySimple.text (KeyAggregate.name key) = None →
  checkInvalidAggregateFilter tc filterType key value = None
  ∧ invalid (tokenFilter tc filterType (aggregate_keyT filterType key) value
               operator negated)
    = None.
Proof.
  intros Hvalue Hunknown.
  assert (Hnone : checkInvalidAggregateFilter tc filterType key value = None).
  { unfold checkInvalidAggregateFilter. by rewrite Hvalue, Hunknown. }
  split; [exact Hnone|].
  cbn [invalid tokenFilter]. by rewrite checkInvalidFilter_aggregate.
Qed.

Lemma tokenFilter_unknown_aggregate_witness :
  invalid (tokenFilter (sample_converter "last_seen(a,b,c):>2023-01-01")
             FilterType.AggregateDate
             (aggregate_key "last_seen" ["a"; "b"; "c"])
             (date_value "2023-01-01")
             (Some TermOperator.GreaterThan) false)
  = None.
Proof.
  apply (tokenFilter_unknown_aggregate
           (sample_converter "last_seen(a,b,c):>2023-01-01")
           AggregateFilter.AggregateDate
           (aggregate_key "last_seen" ["a"; "b"; "c"])
           (date_value "2023-01-01")
           (Some TermOperator.GreaterThan) false); reflexivity.
Defined.

(** ** The grammar predicate *)

Lemma checkAggregate_true (key : Key) (keyName : string)
    (check : string -> bool) :
  checkAggregate key keyName check = true
  ↔ check keyName = true
    ∧ (key_args key = None
       ∨ ∃ args arg, key_args key = Some args ∧ arg ∈ args
                     ∧ check (arg_value_or_empty arg) = true).
Proof.
  unfold checkAggregate. rewrite andb_true_iff.
  destruct (key_args key) as [args|].
  - rewrite existsb_exists. split.
    + intros [Hname (arg & Hin & Harg)]. split; [done | right].
      exists args, arg. by rewrite <-list_elem_of_In in Hin.
    + intros [Hname [? | (args' & arg & [= <-] & Hin & Harg)]]; [done|].
      split; [done|]. exists arg. by rewrite <-list_elem_of_In.
  - split; [intros [Hname _]; by split; [|left] | by intros [Hname _]].
Qed.

(** C2, as the code has it.  For a key whose name is cataloged as a
    function the predicate admits [AggregateDuration] exactly when
    [isDuration] holds of the key name and, where the key has a list of
    arguments, of at least one argument; both are needed.  A key whose
    name is not cataloged as a function is admitted without a test. *)
Theorem predicateFilter_AggregateDuration {I : Imports}
    (tc : TokenConverter) (key : Key) :
  (keyIsAggregate (getKeyName key) = true →
   (predicateFilter tc FilterType.AggregateDuration key = true
    ↔ isDuration tc (getKeyName key) = true
      ∧ (key_args key = None
         ∨ ∃ args arg, key_args key = Some args ∧ arg ∈ args
                       ∧ isDuration tc (arg_value_or_empty arg) = true)))
  ∧ (keyIsAggregate (getKeyName key) = false →
     predicateFilter tc FilterType.AggregateDuration key = true).
Proof.
  unfold predicateFilter. split; intros ->; [|reflexivity].
  apply checkAggregate_true.
Qed.

Lemma predicateFilter_AggregateDuration_witness :
  predicateFilter (sample_converter "p95(transaction.duration)")
    FilterType.AggregateDuration
    (KAggregate (aggregate_key "p95" ["transaction.duration"]))
  = true.
Proof.
  apply (proj1 (predicateFilter_AggregateDuration (I := sample_catalog)
                  (sample_converter "p95(transaction.duration)")
                  (KAggregate (aggregate_key "p95" ["transaction.duration"])))
           ltac:(vm_compute; reflexivity)).
  split; [vm_compute; reflexivity | right].
  exists [param "transaction.duration"], (param "transaction.duration").
  split; [reflexivity | split; [apply list_elem_of_here|]].
  vm_compute; reflexivity.
Defined.

(** The claim with the key name and the arguments as alternatives fails:
    [count] is a function and its argument is a duration column, yet
    [count(transaction.duration)] is not admitted, since [count] itself
    is not a duration key. *)
Lemma predicateFilter_name_or_argument_counterexample :
  let tc := sample_converter "count(transaction.duration)" in
  let key := KAggregate (aggregate_key "count" ["transaction.duration"]) in
  ¬ (predicateFilter tc FilterType.AggregateDuration key = true
     ↔ admits_by_name_or_argument tc key).
Proof.
  intros tc key [_ Hadmit].
  assert (Hfalse : predicateFilter tc FilterType.AggregateDuration key = false)
    by (vm_compute; reflexivity).
  rewrite Hadmit in Hfalse; [discriminate|].
  split; [vm_compute; reflexivity | right].
  exists [param "transaction.duration"], (param "transaction.duration").
  split; [reflexivity | split; [apply list_elem_of_here|]].
  vm_compute; reflexivity.
Qed.

(** ** Arguments of an aggregate *)

Lemma argument_spelling (keyName rest : string) :
  keyName +:+ " expects arument " +:+ rest
  ≠ keyName +:+ " expects argument " +:+ rest.
Proof. intros Heq. apply (inj (String.app keyName)) in Heq. discriminate. Qed.

(** C5.  For a parameter of kind value and a provided argument: the
    inferred type ([number] if [parseFloat] reads a number, else
    [string]) has to equal the data type of the definition, and then the
    verdict is null; on a mismatch the code gives a reason, but not the
    documented one: it spells the word argument without its g. *)
Theorem validateAggregateParameter_value {I : Imports} (keyName : string)
    (dataType : ColumnType) (required : bool) (value : string)
    (position numExpectedArguments : nat) :
  value ≠ "" →
  let verdict :=
    validateAggregateParameter keyName (Some (ParamValue dataType required))
      (Some value) position numExpectedArguments in
  (getValueType value = dataType → verdict = None)
  ∧ (getValueType value ≠ dataType →
     verdict
     = Some {| reason :=
                 keyName +:+ " expects arument " +:+ pretty position
                 +:+ " to be of type " +:+ FieldValueType.to_string dataType;
               expectedType := None |}
     ∧ verdict
       ≠ Some {| reason := value_type_reason keyName position dataType;
                 expectedType := None |}).
Proof.
  intros Hvalue verdict. subst verdict. unfold validateAggregateParameter.
  assert (Hfalsy : falsy (Some value) = false).
  { simpl. by apply String.eqb_neq. }
  rewrite Hfalsy, andb_false_r. cbn [default param_required].
  split.
  - intros Heq. by rewrite bool_decide_eq_true_2.
  - intros Hne. rewrite bool_decide_eq_false_2 by done. cbn [negb].
    split; [reflexivity|].
    intros [= Heq]. by apply argument_spelling in Heq.
Qed.

Lemma validateAggregateParameter_value_witness :
  validateAggregateParameter "apdex"
    (Some (ParamValue FieldValueType.NUMBER false)) (Some "abc") 1 1
  = Some {| reason := "apdex expects arument 1 to be of type number";
            expectedType := None |}
  ∧ validateAggregateParameter "apdex"
      (Some (ParamValue FieldValueType.NUMBER false)) (Some "abc") 1 1
    ≠ Some {| reason := "apdex expects argument 1 to be of type number";
              expectedType := None |}.
Proof.
  apply (validateAggregateParameter_value (I := sample_catalog) "apdex"
           FieldValueType.NUMBER false "abc" 1 1);
    [discriminate | vm_compute; discriminate].
Defined.

(** ** Parsing and joining *)

(** C3.  [parseSearch] returns terms or null and never throws: when the
    grammar throws the result is null; when the grammar returns terms
    they are returned as they are, whole, also when some filter among
    them carries an invalid verdict. *)
Theorem parseSearch_never_throws {R : JSRuntime} {I : Imports}
    (grammar : string -> SearchConfig -> outcome ParseResult)
    (query : string) :
  (∃ result, parseSearch grammar query = Returned result)
  ∧ (∀ e, grammar query defaultConfig = Thrown e →
          parseSearch grammar query = Returned None)
  ∧ (∀ terms, grammar query defaultConfig = Returned terms →
              parseSearch grammar query = Returned (Some terms))
  ∧ (∀ terms f, grammar query defaultConfig = Returned terms →
                TFilter f ∈ terms → invalid f ≠ None →
                parseSearch grammar query = Returned (Some terms)).
Proof.
  unfold parseSearch.
  destruct (grammar query defaultConfig) as [terms|e] eqn:Hparse; simpl.
  - split; [by eexists|]. split; [done|]. split; [by intros ? [= ->]|].
    by intros ? ? [= ->] _ _.
  - split; [by eexists|]. split; [done|]. by split.
Qed.

Lemma term_text_construct {R : JSRuntime} {I : Imports}
    (tc : TokenConverter) (shape : TermShape) :
  term_text (construct tc shape) = tc_text tc.
Proof. by destruct shape. Qed.

(** The terms the grammar returns from an offset spell the input from
    that offset to its end. *)
Lemma terms_from_text {R : JSRuntime} {I : Imports}
    (rule : SearchConfig -> string -> nat -> option (nat * TermShape))
    (config : SearchConfig) (input : string) (fuel start : nat)
    (terms : ParseResult) :
  terms_from rule config input fuel start = Returned terms →
  (start ≤ String.length input)%nat →
  String.concat "" (map term_text terms)
  = String.substring start (String.length input - start) input.
Proof.
  revert start terms. induction fuel as [|fuel IH]; intros start terms.
  - simpl. case_decide as Hend; [|discriminate].
    intros [= <-] _. subst start. by rewrite Nat.sub_diag, substring_zero.
  - simpl. case_decide as Hend.
    { intros [= <-] _. subst start.
      by rewrite Nat.sub_diag, substring_zero. }
    destruct (rule config input start) as [[stop shape]|]; [|discriminate].
    case_decide as Hspan; [|discriminate].
    destruct (terms_from rule config input fuel stop) as [rest|e] eqn:Hrest;
      [|discriminate].
    simpl. intros [= <-] Hstart. destruct Hspan as [Hlt Hle].
    cbn [map]. rewrite concat_empty_cons, term_text_construct.
    rewrite (IH stop rest Hrest Hle). cbn [converter_at tc_text].
    apply substring_split; lia.
Qed.

(** The fuel of [grammar_parse] never runs out: every match advances, so
    any fuel that covers the rest of the input gives the same outcome. *)
Lemma terms_from_fuel {R : JSRuntime} {I : Imports}
    (rule : SearchConfig -> string -> nat -> option (nat * TermShape))
    (config : SearchConfig) (input : string) (fuel fuel' start : nat) :
  (start ≤ String.length input)%nat →
  (String.length input - start ≤ fuel)%nat →
  (String.length input - start ≤ fuel')%nat →
  terms_from rule config input fuel start
  = terms_from rule config input fuel' start.
Proof.
  revert fuel' start. induction fuel as [|fuel IH]; intros fuel' start Hs Hf Hf'.
  - destruct fuel'; simpl; case_decide; (done || lia).
  - destruct fuel' as [|fuel']; simpl; case_decide as Hend; try (done || lia).
    destruct (rule config input start) as [[stop shape]|]; [|done].
    case_decide as Hspan; [|done].
    rewrite (IH fuel' stop); [done | lia..].
Qed.

Lemma joinQuery_concat {R : JSRuntime} (terms : ParseResult)
    (leadingSpace additionalSpaceBetween : option bool) :
  default false leadingSpace = false →
  default false additionalSpaceBetween = false →
  joinQuery (Some terms) leadingSpace additionalSpaceBetween
  = String.concat "" (map term_text terms).
Proof.
  intros Hl Ha. unfold joinQuery. rewrite Hl, Ha.
  destruct terms as [|p0 [|p1 rest]]; reflexivity.
Qed.

(** C1.  With default flags, that is without a leading space and without
    a space added between the terms, joining the terms of a query that
    parses gives the query back. *)
Theorem joinQuery_parseSearch {R : JSRuntime} {I : Imports}
    (rule : SearchConfig -> string -> nat -> option (nat * TermShape))
    (query : string) (terms : ParseResult) :
  parseSearch (grammar_parse rule) query = Returned (Some terms) →
  joinQuery (Some terms) None None = query
  ∧ joinQuery (Some terms) (Some false) (Some false) = query.
Proof.
  unfold parseSearch, grammar_parse. intros Hparse.
  destruct (terms_from rule defaultConfig query (String.length query) 0)
    as [terms'|e] eqn:Hterms; simpl in Hparse; [|discriminate].
  injection Hparse as ->.
  apply terms_from_text in Hterms; [|lia].
  rewrite Nat.sub_0_r, substring_all in Hterms.
  by rewrite !joinQuery_concat.
Qed.

Lemma parseSearch_never_throws_witness :
  parseSearch sample_parse "transaction.duration:hello world"
  = Returned (Some sample_invalid_terms)
  ∧ (∃ f, TFilter f ∈ sample_invalid_terms ∧ invalid f ≠ None)
  ∧ parseSearch sample_parse (String dquote "unterminated") = Returned None.
Proof.
  assert (Hparse : sample_parse "transaction.duration:hello world"
                     defaultConfig
                   = Returned sample_invalid_terms)
    by (vm_compute; reflexivity).
  assert (Hinvalid : ∃ f, TFilter f ∈ sample_invalid_terms
                          ∧ invalid f ≠ None).
  { unfold sample_invalid_terms. eexists.
    split; [apply list_elem_of_here | discriminate]. }
  split; [|split; [exact Hinvalid|]].
  - destruct Hinvalid as (f & Hin & Hf).
    exact (proj2 (proj2 (proj2
             (parseSearch_never_throws sample_parse
                "transaction.duration:hello world")))
             sample_invalid_terms f Hparse Hin Hf).
  - apply (proj1 (proj2
             (parseSearch_never_throws sample_parse
                (String dquote "unterminated"))))
      with (e := SyntaxError "Expected a term").
    vm_compute. reflexivity.
Defined.

Lemma joinQuery_parseSearch_witness :
  parseSearch sample_parse "transaction.duration:hello  AND message:x"
  = Returned (Some sample_terms)
  ∧ length sample_terms = 5
  ∧ joinQuery (Some sample_terms) None None
    = "transaction.duration:hello  AND message:x".
Proof.
  assert (Hparse : parseSearch sample_parse
                     "transaction.duration:hello  AND message:x"
                   = Returned (Some sample_terms))
    by (vm_compute; reflexivity).
  split; [exact Hparse|]. split; [reflexivity|].
  exact (proj1 (joinQuery_parseSearch sample_rule
                  "transaction.duration:hello  AND message:x" sample_terms
                  Hparse)).
Defined.
(** * Further properties *)

(** ** Adding and removing the trailing space *)

Lemma length_append (s r : string) :
  String.length (s +:+ r) = (String.length s + String.length r)%nat.
Proof.
  induction s as [|c s IH]; [done|].
  rewrite append_cons. simpl. by rewrite IH.
Qed.

Lemma get_append_end (s : string) (c : ascii) :
  String.get (String.length s) (s +:+ String c "") = Some c.
Proof. induction s as [|d s IH]; [done|]. by rewrite append_cons. Qed.

Lemma last_char_append (s : string) (c : ascii) :
  last_char (s +:+ String c "") = Some c.
Proof.
  unfold last_char. rewrite length_append. simpl.
  rewrite Nat.add_1_r. apply get_append_end.
Qed.

Lemma substring_append_start (s r : string) :
  String.substring 0 (String.length s) (s +:+ r) = s.
Proof.
  induction s as [|c s IH].
  - simpl. by destruct r.
  - rewrite append_cons. simpl. by rewrite IH.
Qed.

Lemma get_last_split (s : string) (n : nat) (c : ascii) :
  String.get n s = Some c → String.length s = S n →
  s = String.substring 0 n s +:+ String c "".
Proof.
  revert n. induction s as [|d s IH]; intros n Hget Hlen; [done|].
  destruct n as [|n].
  - simpl in *. destruct s; [|done]. by injection Hget as ->.
  - simpl in *. rewrite append_cons. f_equal. apply IH; [done | lia].
Qed.

(** A string whose last character is [c] is its beginning followed by
    [c]. *)
Lemma last_char_split (s : string) (c : ascii) :
  last_char s = Some c →
  s = String.substring 0 (String.length s - 1) s +:+ String c "".
Proof.
  unfold last_char. destruct (String.length s) as [|n] eqn:Hlen; [done|].
  intros Hget. rewrite Nat.sub_succ, Nat.sub_0_r. by apply get_last_split.
Qed.

(** X1.  [addSpace] gives the empty query or a query that ends with a
    space, and leaves such queries alone, so adding twice is adding
    once; [removeSpace] undoes [addSpace] on every query that does not
    itself end with a space (the empty and the omitted query among
    them), and [addSpace] undoes [removeSpace] when what is left of the
    query is not empty and does not end with a space. *)
Theorem addSpace_removeSpace (query : option string) :
  (addSpace query = "" ∨ last_char (addSpace query) = Some " "%char)
  ∧ addSpace (Some (addSpace query)) = addSpace query
  ∧ (last_char (default "" query) ≠ Some " "%char →
     removeSpace (Some (addSpace query)) = default "" query)
  ∧ (last_char (default "" query) = Some " "%char →
     removeSpace query ≠ "" →
     last_char (removeSpace query) ≠ Some " "%char →
     addSpace (Some (removeSpace query)) = default "" query).
Proof.
  destruct query as [query|]; cbn [default from_option id];
    [|repeat split; (by left) || done].
  assert (Hshape : addSpace (Some query) = ""
                   ∨ last_char (addSpace (Some query)) = Some " "%char).
  { unfold addSpace. cbn [default from_option id]. destruct query as [|c s]; [by left|].
    cbn [String.length Nat.eqb negb andb]. case_bool_decide as Hlast.
    - by right.
    - right. apply last_char_append. }
  split; [exact Hshape|]. split; [|split].
  - unfold addSpace at 1. cbn [default from_option id].
    destruct Hshape as [-> | Hlast]; [done|].
    by rewrite (bool_decide_eq_true_2 _ Hlast), andb_false_r.
  - intros Hlast. unfold addSpace, removeSpace. cbn [default from_option id].
    rewrite (bool_decide_eq_false_2 _ Hlast). cbn [negb].
    rewrite andb_true_r. destruct query as [|c s]; [done|].
    cbn [String.length Nat.eqb negb].
    rewrite (bool_decide_eq_true_2 _ (last_char_append _ _)).
    rewrite length_append. cbn [String.length].
    rewrite Nat.add_1_r, Nat.sub_succ, Nat.sub_0_r.
    apply (substring_append_start (String c s)).
  - intros Hlast Hrest Hnot. unfold removeSpace in *. cbn [default from_option id] in *.
    rewrite (bool_decide_eq_true_2 _ Hlast) in *.
    unfold addSpace. cbn [default from_option id].
    rewrite (bool_decide_eq_false_2 _ Hnot). cbn [negb]. rewrite andb_true_r.
    destruct (String.substring 0 (String.length query - 1) query)
      as [|c s] eqn:Hsub; [done|].
    cbn [String.length Nat.eqb negb]. rewrite <-Hsub.
    symmetry. by apply last_char_split.
Qed.

Lemma addSpace_removeSpace_witness :
  removeSpace (Some (addSpace (Some "is:unresolved"))) = "is:unresolved"
  ∧ addSpace (Some (removeSpace (Some "is:unresolved ")))
    = "is:unresolved ".
Proof.
  split.
  - apply (addSpace_removeSpace (Some "is:unresolved")). discriminate.
  - apply (addSpace_removeSpace (Some "is:unresolved "));
      [reflexivity | discriminate | discriminate].
Defined.

(** ** The arguments of an aggregate, position by position *)

Lemma first_reason_None (check : nat -> option InvalidFilter)
    (indices : list nat) :
  first_reason check indices = None ↔ ∀ i, i ∈ indices → check i = None.
Proof.
  induction indices as [|i indices IH]; simpl.
  - split; [by intros _ ? ?%elem_of_nil | done].
  - destruct (check i) as [r|] eqn:Hi.
    + split; [done|]. intros Hall.
      specialize (Hall i (list_elem_of_here _ _)). congruence.
    + rewrite IH. split.
      * intros Hall j [-> | Hj]%elem_of_cons; auto.
      * intros Hall j Hj. apply Hall. by right.
Qed.

Lemma first_reason_seq_Some (check : nat -> option InvalidFilter)
    (start n : nat) (r : InvalidFilter) :
  first_reason check (seq start n) = Some r →
  ∃ i, (start ≤ i < start + n)%nat ∧ check i = Some r
       ∧ ∀ j, (start ≤ j < i)%nat → check j = None.
Proof.
  revert start. induction n as [|n IH]; intros start; simpl; [done|].
  destruct (check start) as [r'|] eqn:Hstart.
  - intros [= ->]. exists start. split; [lia|]. split; [done|]. lia.
  - intros (i & Hi & Hr & Hbefore)%IH. exists i. split; [lia|].
    split; [done|]. intros j Hj.
    destruct (decide (j = start)) as [-> | Hne]; [done|].
    apply Hbefore. lia.
Qed.

(** The verdict on the arguments once the value type fits and the
    aggregate is known: the loop over the positions. *)
Lemma checkInvalidAggregateFilter_known {R : JSRuntime} {I : Imports}
    (tc : TokenConverter) (filterType : AggregateFilter.t)
    (key : KeyAggregate.t) (value : valueT filterType)
    (aggregation : Aggregation) :
  let keyName := KeySimple.text (KeyAggregate.name key) in
  checkInvalidAggregateFilterValue tc filterType key value = None →
  AGGREGATIONS !! keyName = Some aggregation →
  checkInvalidAggregateFilter tc filterType key value
  = first_reason
      (fun argIndex =>
         validateAggregateParameter keyName
           (parameters aggregation !! argIndex)
           (parameterValue_at key argIndex) (argIndex + 1)
           (length (parameters aggregation)))
      (seq 0 (Nat.max (length (parameters aggregation))
                (numProvidedArguments key))).
Proof.
  intros keyName Hvalue Hknown. unfold checkInvalidAggregateFilter.
  fold keyName. by rewrite Hvalue, Hknown.
Qed.

Lemma checkInvalidAggregateFilter_value_first {R : JSRuntime} {I : Imports}
    (tc : TokenConverter) (filterType : AggregateFilter.t)
    (key : KeyAggregate.t) (value : valueT filterType) :
  checkInvalidAggregateFilter tc filterType key value = None →
  checkInvalidAggregateFilterValue tc filterType key value = None.
Proof.
  unfold checkInvalidAggregateFilter.
  by destruct (checkInvalidAggregateFilterValue tc filterType key value).
Qed.

(** X2.  An aggregate filter of a known aggregate that is found valid has
    no more arguments than the aggregate has parameters, and has an
    argument that is not empty at every required parameter. *)
Theorem checkInvalidAggregateFilter_valid_arity {R : JSRuntime}
    {I : Imports} (tc : TokenConverter) (filterType : AggregateFilter.t)
    (key : KeyAggregate.t) (value : valueT filterType)
    (aggregation : Aggregation) :
  AGGREGATIONS !! KeySimple.text (KeyAggregate.name key) = Some aggregation →
  checkInvalidAggregateFilter tc filterType key value = None →
  (numProvidedArguments key ≤ length (parameters aggregation))%nat
  ∧ ∀ argIndex definition,
      parameters aggregation !! argIndex = Some definition →
      param_required definition = true →
      ∃ argument, parameterValue_at key argIndex = Some argument
                  ∧ argument ≠ "".
Proof.
  intros Hknown Hvalid.
  pose proof (checkInvalidAggregateFilter_value_first _ _ _ _ Hvalid)
    as Hvalue.
  rewrite (checkInvalidAggregateFilter_known _ _ _ _ _ Hvalue Hknown)
    in Hvalid.
  rewrite first_reason_None in Hvalid. split.
  - destruct (decide (numProvidedArguments key
                      ≤ length (parameters aggregation))%nat)
      as [Hle | Hgt]; [done|].
    specialize (Hvalid (length (parameters aggregation))).
    rewrite (lookup_ge_None_2 (parameters aggregation)) in Hvalid by lia.
    simpl in Hvalid. discriminate Hvalid.
    apply list_elem_of_In, in_seq. lia.
  - intros argIndex definition Hdef Hrequired.
    specialize (Hvalid argIndex). rewrite Hdef in Hvalid.
    unfold validateAggregateParameter in Hvalid. rewrite Hrequired in Hvalid.
    destruct (parameterValue_at key argIndex) as [argument|] eqn:Hargument.
    + exists argument. split; [done|]. intros ->.
      simpl in Hvalid. discriminate Hvalid.
      apply list_elem_of_In, in_seq. apply lookup_lt_Some in Hdef. lia.
    + simpl in Hvalid. discriminate Hvalid.
      apply list_elem_of_In, in_seq. apply lookup_lt_Some in Hdef. lia.
Qed.

(** X3.  The first failure wins: when the value type fits and the
    aggregate is known, an invalid verdict is the reason of the lowest
    argument position that does not validate; in particular an argument
    beyond the parameters, all positions before it validating, gives the
    reason that tells the number of arguments expected. *)
Theorem checkInvalidAggregateFilter_first_failure {R : JSRuntime}
    {I : Imports} (tc : TokenConverter) (filterType : AggregateFilter.t)
    (key : KeyAggregate.t) (value : valueT filterType)
    (aggregation : Aggregation) :
  let keyName := KeySimple.text (KeyAggregate.name key) in
  let expected := length (parameters aggregation) in
  let validate argIndex :=
    validateAggregateParameter keyName (parameters aggregation !! argIndex)
      (parameterValue_at key argIndex) (argIndex + 1) expected in
  checkInvalidAggregateFilterValue tc filterType key value = None →
  AGGREGATIONS !! keyName = Some aggregation →
  (∀ reason,
     checkInvalidAggregateFilter tc filterType key value = Some reason →
     ∃ argIndex,
       (argIndex < Nat.max expected (numProvidedArguments key))%nat
       ∧ validate argIndex = Some reason
       ∧ ∀ before, (before < argIndex)%nat → validate before = None)
  ∧ ((expected < numProvidedArguments key)%nat →
     (∀ argIndex, (argIndex < expected)%nat → validate argIndex = None) →
     checkInvalidAggregateFilter tc filterType key value
     = Some {| reason :=
                 keyName +:+ " is expecting " +:+ pretty expected
                 +:+ " arguments.";
               expectedType := None |}).
Proof.
  intros keyName expected validate Hvalue Hknown.
  rewrite (checkInvalidAggregateFilter_known _ _ _ _ _ Hvalue Hknown).
  fold keyName expected. split.
  - intros reason (i & Hi & Hr & Hbefore)%first_reason_seq_Some.
    exists i. split; [lia|]. split; [exact Hr|].
    intros before Hlt. apply Hbefore. lia.
  - intros Hmore Hpass.
    destruct (first_reason
                (λ argIndex,
                   validateAggregateParameter keyName
                     (parameters aggregation !! argIndex)
                     (parameterValue_at key argIndex) (argIndex + 1) expected)
                (seq 0 (Nat.max expected (numProvidedArguments key))))
      as [r|] eqn:Hfirst.
    + apply first_reason_seq_Some in Hfirst as (i & Hi & Hr & Hbefore).
      destruct (decide (i < expected)%nat) as [Hlt | Hge].
      { specialize (Hpass i Hlt). unfold validate in Hpass. congruence. }
      destruct (decide (i = expected)) as [-> | Hne].
      * rewrite (lookup_ge_None_2 (parameters aggregation)) in Hr
          by (unfold expected; lia).
        simpl in Hr. by injection Hr as <-.
      * assert (Hexp : validate expected = None)
          by (apply Hbefore; lia).
        unfold validate in Hexp.
        rewrite (lookup_ge_None_2 (parameters aggregation)) in Hexp
          by (unfold expected; lia).
        simpl in Hexp. discriminate.
    + rewrite first_reason_None in Hfirst.
      specialize (Hfirst expected).
      rewrite (lookup_ge_None_2 (parameters aggregation)) in Hfirst
        by (unfold expected; lia).
      simpl in Hfirst. discriminate Hfirst.
      apply list_elem_of_In, in_seq. lia.
Qed.

Lemma checkInvalidAggregateFilter_valid_arity_witness :
  (numProvidedArguments (aggregate_key "p95" ["transaction.duration"]) ≤ 1)%nat
  ∧ ∃ argument,
      parameterValue_at (aggregate_key "p95" ["transaction.duration"]) 0
      = Some argument
      ∧ argument ≠ "".
Proof.
  destruct (checkInvalidAggregateFilter_valid_arity (I := sample_catalog)
              (sample_converter "p95(transaction.duration):>500ms")
              AggregateFilter.AggregateDuration
              (aggregate_key "p95" ["transaction.duration"])
              (duration_value "500" "ms")
              {| parameters :=
                   [ParamColumn
                      (ColumnTypesList [FieldValueType.DURATION;
                                        FieldValueType.NUMBER;
                                        FieldValueType.PERCENTAGE])
                      true] |}
              ltac:(vm_compute; reflexivity)
              ltac:(vm_compute; reflexivity)) as [Harity Hrequired].
  split; [exact Harity|].
  exact (Hrequired 0 _ eq_refl eq_refl).
Defined.

Lemma checkInvalidAggregateFilter_first_failure_witness :
  checkInvalidAggregateFilter
    (sample_converter "p95(transaction.duration,extra):>500ms")
    AggregateFilter.AggregateDuration
    (aggregate_key "p95" ["transaction.duration"; "extra"])
    (duration_value "500" "ms")
  = Some {| reason := "p95 is expecting 1 arguments.";
            expectedType := None |}.
Proof.
  apply (proj2 (checkInvalidAggregateFilter_first_failure
                  (I := sample_catalog)
                  (sample_converter "p95(transaction.duration,extra):>500ms")
                  AggregateFilter.AggregateDuration
                  (aggregate_key "p95" ["transaction.duration"; "extra"])
                  (duration_value "500" "ms")
                  {| parameters :=
                       [ParamColumn
                          (ColumnTypesList [FieldValueType.DURATION;
                                            FieldValueType.NUMBER;
                                            FieldValueType.PERCENTAGE])
                          true] |}
                  ltac:(vm_compute; reflexivity)
                  ltac:(vm_compute; reflexivity))).
  - vm_compute. lia.
  - intros [|argIndex] Hlt; [vm_compute; reflexivity | vm_compute in Hlt; lia].
Defined.

(** ** One argument against its parameter *)

(** A provided argument that is not empty reaches the test of its kind,
    required or not. *)
Lemma validateAggregateParameter_provided {I : Imports} (keyName : string)
    (definition : AggregateParameter) (value : string)
    (position numExpectedArguments : nat) :
  value ≠ "" →
  validateAggregateParameter keyName (Some definition) (Some value) position
    numExpectedArguments
  = match definition with
    | ParamColumn columnTypes _ =>
        validateAggregateParameterColumn keyName columnTypes position value
    | ParamDropdown options _ _ =>
        match find (fun option => String.eqb (option_value option) value)
                options with
        | None =>
            Some {| reason :=
                      keyName +:+ " expects argument " +:+ pretty position
                      +:+ " to be one of: "
                      +:+ join ", "
                            (map (fun option =>
                                    "'" +:+ option_value option +:+ "'")
                               options);
                    expectedType := None |}
        | Some _ => None
        end
    | ParamValue dataType _ =>
        if negb (bool_decide (getValueType value = dataType))
        then Some {| reason :=
                       keyName +:+ " expects arument " +:+ pretty position
                       +:+ " to be of type "
                       +:+ FieldValueType.to_string dataType;
                     expectedType := None |}
        else None
    end.
Proof.
  intros Hvalue. unfold validateAggregateParameter.
  assert (Hfalsy : falsy (Some value) = false)
    by (simpl; by apply String.eqb_neq).
  by rewrite Hfalsy, andb_false_r.
Qed.

(** X4.  A column argument against a list of column types validates
    exactly when it names a field of the catalog whose value type is in
    the list; a name the catalog does not know is told to be no column,
    a field of another type is told the types of the list. *)
Theorem validateAggregateParameter_column_list {I : Imports}
    (keyName : string) (types : list ColumnType) (required : bool)
    (value : string) (position numExpectedArguments : nat) :
  value ≠ "" →
  let verdict :=
    validateAggregateParameter keyName
      (Some (ParamColumn (ColumnTypesList types) required)) (Some value)
      position numExpectedArguments in
  (verdict = None
   ↔ ∃ definition type,
       getFieldDefinition value = Some definition
       ∧ valueType definition = Some type ∧ type ∈ types)
  ∧ (getFieldDefinition value = None →
     verdict
     = Some {| reason :=
                 keyName +:+ " expects argument " +:+ pretty position
                 +:+ " to be a column.";
               expectedType := None |})
  ∧ (∀ definition,
       getFieldDefinition value = Some definition →
       (∀ type, valueType definition = Some type → type ∉ types) →
       verdict
       = Some {| reason :=
                   keyName +:+ " expects argument " +:+ pretty position
                   +:+ " to be a column of type: "
                   +:+ join ", " (map FieldValueType.to_string types)
                   +:+ ".";
                 expectedType := None |}).
Proof.
  intros Hvalue verdict. subst verdict.
  rewrite validateAggregateParameter_provided by done.
  unfold validateAggregateParameterColumn.
  destruct (getFieldDefinition value) as [definition|] eqn:Hdefinition.
  - destruct (existsb
                (λ columnOrMetricType,
                   bool_decide (Some columnOrMetricType
                                = valueType definition))
                types) eqn:Hexists; cbn [negb].
    + apply existsb_exists in Hexists as (type & Hin & Heq).
      apply bool_decide_eq_true_1 in Heq. apply list_elem_of_In in Hin.
      split; [|split; [done|]].
      * split; [intros _; by exists definition, type | done].
      * intros ? [= <-] Hnot. by destruct (Hnot type).
    + split; [|split; [done|]].
      * split; [done|]. intros (definition' & type & [= <-] & Htype & Hin).
        apply not_true_iff_false in Hexists. destruct Hexists.
        apply existsb_exists. exists type.
        split; [by apply list_elem_of_In | by apply bool_decide_eq_true_2].
      * by intros ? [= <-] _.
  - split; [|split; [done|]].
    + split; [done | by intros (? & ? & ? & _)].
    + by intros ? ?.
Qed.

Lemma validateAggregateParameter_column_list_witness :
  validateAggregateParameter "p95"
    (Some (ParamColumn
             (ColumnTypesList [FieldValueType.DURATION;
                               FieldValueType.NUMBER])
             true))
    (Some "transaction.duration") 1 1
  = None
  ∧ validateAggregateParameter "p95"
      (Some (ParamColumn
               (ColumnTypesList [FieldValueType.DURATION;
                                 FieldValueType.NUMBER])
               true))
      (Some "nothing") 1 1
    = Some {| reason := "p95 expects argument 1 to be a column.";
              expectedType := None |}
  ∧ validateAggregateParameter "p95"
      (Some (ParamColumn
               (ColumnTypesList [FieldValueType.DURATION;
                                 FieldValueType.NUMBER])
               true))
      (Some "timestamp") 1 1
    = Some {| reason :=
                "p95 expects argument 1 to be a column of type: duration, number.";
              expectedType := None |}.
Proof.
  split; [|split].
  - apply (validateAggregateParameter_column_list (I := sample_catalog)
             "p95" [FieldValueType.DURATION; FieldValueType.NUMBER] true
             "transaction.duration" 1 1); [discriminate|].
    exists (field FieldValueType.DURATION), FieldValueType.DURATION.
    split; [vm_compute; reflexivity | split; [reflexivity|]].
    apply list_elem_of_here.
  - apply (validateAggregateParameter_column_list (I := sample_catalog)
             "p95" [FieldValueType.DURATION; FieldValueType.NUMBER] true
             "nothing" 1 1); [discriminate | vm_compute; reflexivity].
  - apply (proj2 (proj2 (validateAggregateParameter_column_list
                           (I := sample_catalog) "p95"
                           [FieldValueType.DURATION; FieldValueType.NUMBER]
                           true "timestamp" 1 1 ltac:(discriminate)))
             (field FieldValueType.DATE)); [vm_compute; reflexivity|].
    intros type [= <-] Hin.
    apply elem_of_cons in Hin as [? | Hin]; [discriminate|].
    apply elem_of_cons in Hin as [? | Hin]; [discriminate|].
    by apply elem_of_nil in Hin.
Defined.

(** X5.  A dropdown argument validates exactly when it is the value of
    one of the options; otherwise the reason lists the values of all the
    options, each in single quotes. *)
Theorem validateAggregateParameter_dropdown {I : Imports}
    (keyName : string) (options : list DropdownOption)
    (dataType : ColumnType) (required : bool) (value : string)
    (position numExpectedArguments : nat) :
  value ≠ "" →
  let verdict :=
    validateAggregateParameter keyName
      (Some (ParamDropdown options dataType required)) (Some value) position
      numExpectedArguments in
  (verdict = None ↔ value ∈ map option_value options)
  ∧ (value ∉ map option_value options →
     verdict
     = Some {| reason :=
                 keyName +:+ " expects argument " +:+ pretty position
                 +:+ " to be one of: "
                 +:+ join ", "
                       (map (fun option => "'" +:+ option_value option +:+ "'")
                          options);
               expectedType := None |}).
Proof.
  intros Hvalue verdict. subst verdict.
  rewrite validateAggregateParameter_provided by done.
  destruct (find (λ option, String.eqb (option_value option) value) options)
    as [option|] eqn:Hfind.
  - apply find_some in Hfind as [Hin Heq]. apply String.eqb_eq in Heq.
    assert (Hmember : value ∈ map option_value options).
    { apply list_elem_of_In, in_map_iff. by exists option. }
    split; [done|]. by intros Hnot.
  - assert (Hnot : value ∉ map option_value options).
    { intros (option & Heq & Hin)%list_elem_of_In%in_map_iff.
      pose proof (find_none _ _ Hfind option Hin) as Hne. simpl in Hne.
      apply String.eqb_neq in Hne. congruence. }
    split; [|done]. split; [done | by intros ?].
Qed.

Lemma validateAggregateParameter_dropdown_witness :
  validateAggregateParameter "count_if"
    (Some (ParamDropdown
             [ {| option_label := "is equal to"; option_value := "equals" |};
               {| option_label := "is less than"; option_value := "less" |} ]
             FieldValueType.STRING true))
    (Some "less") 2 3
  = None
  ∧ validateAggregateParameter "count_if"
      (Some (ParamDropdown
               [ {| option_label := "is equal to"; option_value := "equals" |};
                 {| option_label := "is less than"; option_value := "less" |} ]
               FieldValueType.STRING true))
      (Some "about") 2 3
    = Some {| reason :=
                "count_if expects argument 2 to be one of: 'equals', 'less'";
              expectedType := None |}.
Proof.
  split.
  - apply (validateAggregateParameter_dropdown (I := sample_catalog));
      [discriminate|]. simpl. apply list_elem_of_further, list_elem_of_here.
  - apply (validateAggregateParameter_dropdown (I := sample_catalog));
      [discriminate|]. simpl. intros Hin.
    apply elem_of_cons in Hin as [? | Hin]; [discriminate|].
    apply elem_of_cons in Hin as [? | Hin]; [discriminate|].
    by apply elem_of_nil in Hin.
Defined.

Lemma getValueType_cases (value : string) :
  getValueType value = FieldValueType.NUMBER
  ∨ getValueType value = FieldValueType.STRING.
Proof. unfold getValueType. destruct (isNaN_parseFloat value); auto. Qed.

(** X6.  A value argument is typed by its beginning alone: one that
    starts with a digit counts as a number whatever follows, so it fits a
    number parameter and never a string parameter; and as the inferred
    type is number or string, a value parameter of any other data type
    rejects every argument. *)
Theorem validateAggregateParameter_value_types {I : Imports}
    (keyName : string) (dataType : ColumnType) (required : bool)
    (value : string) (position numExpectedArguments : nat) :
  value ≠ "" →
  let verdict :=
    validateAggregateParameter keyName (Some (ParamValue dataType required))
      (Some value) position numExpectedArguments in
  (dataType ≠ FieldValueType.NUMBER → dataType ≠ FieldValueType.STRING →
   verdict ≠ None)
  ∧ (∀ digit rest, value = String digit rest → is_digit digit = true →
       (verdict = None ↔ dataType = FieldValueType.NUMBER)).
Proof.
  intros Hvalue verdict. subst verdict.
  rewrite validateAggregateParameter_provided by done. split.
  - intros Hnumber Hstring.
    rewrite bool_decide_eq_false_2; [done|].
    destruct (getValueType_cases value); congruence.
  - intros digit rest -> Hdigit.
    assert (Htype : getValueType (String digit rest) = FieldValueType.NUMBER).
    { unfold getValueType, isNaN_parseFloat.
      assert (Hspace : is_white_space digit = false).
      { revert Hdigit. unfold is_digit, is_white_space.
        generalize (nat_of_ascii digit). intros n Hn.
        apply andb_true_iff in Hn as [H1%Nat.leb_le H2%Nat.leb_le].
        repeat (apply orb_false_iff; split); apply Nat.eqb_neq; lia. }
      assert (Hsign : (Ascii.eqb digit "+" || Ascii.eqb digit "-") = false).
      { apply orb_false_iff.
        split; apply Ascii.eqb_neq; intros ->; discriminate. }
      cbn [skip_white_space]. rewrite Hspace. cbn [skip_sign].
      rewrite Hsign. by rewrite Hdigit. }
    rewrite Htype. case_bool_decide as Heq; cbn [negb]; by split.
Qed.

Lemma validateAggregateParameter_value_types_witness :
  validateAggregateParameter "apdex"
    (Some (ParamValue FieldValueType.NUMBER false)) (Some "300ms") 1 1
  = None
  ∧ validateAggregateParameter "count_if"
      (Some (ParamValue FieldValueType.INTEGER true)) (Some "300") 3 3
    ≠ None.
Proof.
  split.
  - by apply (proj2 (validateAggregateParameter_value_types
                       (I := sample_catalog) "apdex" FieldValueType.NUMBER
                       false "300ms" 1 1 ltac:(discriminate))
                "3"%char "00ms" eq_refl eq_refl).
  - apply (validateAggregateParameter_value_types (I := sample_catalog)
             "count_if" FieldValueType.INTEGER true "300" 3 3);
      discriminate.
Defined.

(** ** The operators offered for a filter token *)

Lemma NoDup_new_Set_from {A : Type} `{EqDecision A} (seen l : list A) :
  NoDup (new_Set_from seen l).
Proof.
  revert seen. induction l as [|x l IH]; intros seen; simpl.
  - apply NoDup_nil_2.
  - case_bool_decide as Hx; [apply IH|].
    apply NoDup_cons_2; [|apply IH].
    rewrite elem_of_new_Set_from. intros [_ Hnot]. apply Hnot.
    apply list_elem_of_here.
Qed.

Lemma elem_of_concat_map {A B : Type} (f : A -> list B) (l : list A)
    (y : B) :
  y ∈ concat (map f l) ↔ ∃ x, x ∈ l ∧ y ∈ f x.
Proof.
  rewrite list_elem_of_In, in_concat. split.
  - intros (ys & (x & <- & Hx)%in_map_iff & Hy).
    exists x. by rewrite !list_elem_of_In.
  - intros (x & Hx & Hy). exists (f x). rewrite in_map_iff.
    split; [exists x|]; by rewrite <-?list_elem_of_In.
Qed.

Lemma validOps_allOperators (f : FilterType.t) (op : TermOperator.t) :
  op ∈ validOps (filterTypeConfig f) → op ∈ allOperators.
Proof.
  assert (Hbasic : op ∈ basicOperators → op ∈ allOperators).
  { unfold basicOperators, allOperators. rewrite !elem_of_cons. tauto. }
  destruct f; simpl; auto; by intros ?%elem_of_nil.
Qed.

(** A token that carries no expected types gets the operators of its own
    filter type and of the types interchangeable with it. *)
Lemma getValidOps_no_hint {R : JSRuntime} (filterToken : FilterToken) :
  invalid filterToken ≫= expectedType = None →
  getValidOps filterToken = valid_ops_of (filter filterToken).
Proof. intros Hnone. unfold getValidOps. by rewrite Hnone. Qed.

Lemma elem_of_default_nil {A : Type} (o : option (list A)) (x : A) :
  x ∈ default [] o ↔ ∃ l, o = Some l ∧ x ∈ l.
Proof.
  destruct o as [l|]; simpl.
  - split; [intros ?; by exists l | by intros (? & [= <-] & ?)].
  - split; [by intros ?%elem_of_nil | by intros (? & ? & _)].
Qed.

(** X7.  The operators [getValidOps] gives for any filter token, valid or
    not, hold no operator twice, are operators of [allOperators], and
    are exactly the valid operators of the types the token starts from
    (its expected types when it has some, else its filter type) and of
    the types interchangeable with those. *)
Theorem getValidOps_operators {R : JSRuntime} (filterToken : FilterToken) :
  NoDup (getValidOps filterToken)
  ∧ (∀ op, op ∈ getValidOps filterToken → op ∈ allOperators)
  ∧ ∀ op,
      op ∈ getValidOps filterToken
      ↔ ∃ type,
          (type ∈ validTypes filterToken
           ∨ ∃ from types,
               from ∈ validTypes filterToken
               ∧ interchangeableFilterOperators from = Some types
               ∧ type ∈ types)
          ∧ op ∈ validOps (filterTypeConfig type).
Proof.
  assert (Hmember : ∀ op,
            op ∈ getValidOps filterToken
            ↔ ∃ type,
                (type ∈ validTypes filterToken
                 ∨ ∃ from types,
                     from ∈ validTypes filterToken
                     ∧ interchangeableFilterOperators from = Some types
                     ∧ type ∈ types)
                ∧ op ∈ validOps (filterTypeConfig type)).
  { intros op. unfold getValidOps. fold (validTypes filterToken).
    rewrite elem_of_new_Set, elem_of_concat_map.
    split; intros (type & Htype & Hop); exists type; (split; [|done]).
    - rewrite elem_of_new_Set, elem_of_app, elem_of_concat_map in Htype.
      destruct Htype as [? | (from & Hfrom & Hin)]; [by left | right].
      apply elem_of_default_nil in Hin as (types & Htypes & Hin).
      by exists from, types.
    - rewrite elem_of_new_Set, elem_of_app, elem_of_concat_map.
      destruct Htype as [? | (from & types & Hfrom & Htypes & Hin)];
        [by left | right].
      exists from. split; [done|]. apply elem_of_default_nil.
      by exists types. }
  split; [apply NoDup_new_Set_from|]. split; [|exact Hmember].
  intros op (type & _ & Hop)%Hmember. by apply validOps_allOperators in Hop.
Qed.

(** ** Expected types *)

Lemma checkInvalidTextValue_no_hint (value : ValueText.t)
    (verdict : InvalidFilter) :
  checkInvalidTextValue value = Some verdict → expectedType verdict = None.
Proof.
  unfold checkInvalidTextValue.
  repeat case_match; by intros [= <-].
Qed.

Lemma checkInvalidInFilter_no_hint {V : Type} (items : list (ListEntry V))
    (verdict : InvalidFilter) :
  checkInvalidInFilter items = Some verdict → expectedType verdict = None.
Proof. unfold checkInvalidInFilter. case_match; by intros [= <-]. Qed.

Lemma validateAggregateParameter_no_hint {I : Imports} (keyName : string)
    (definition : option AggregateParameter) (value : option string)
    (position numExpectedArguments : nat) (verdict : InvalidFilter) :
  validateAggregateParameter keyName definition value position
    numExpectedArguments = Some verdict →
  expectedType verdict = None.
Proof.
  unfold validateAggregateParameter, validateAggregateParameterColumn.
  repeat case_match; by intros [= <-].
Qed.

Lemma first_reason_Some (check : nat -> option InvalidFilter)
    (indices : list nat) (verdict : InvalidFilter) :
  first_reason check indices = Some verdict →
  ∃ argIndex, check argIndex = Some verdict.
Proof.
  induction indices as [|i indices IH]; simpl; [done|].
  destruct (check i) eqn:Hi; [intros [= <-]; by exists i | exact IH].
Qed.

Lemma checkInvalidAggregateFilter_no_hint {R : JSRuntime} {I : Imports}
    (tc : TokenConverter) (filterType : AggregateFilter.t)
    (key : KeyAggregate.t) (value : valueT filterType)
    (verdict : InvalidFilter) :
  checkInvalidAggregateFilter tc filterType key value = Some verdict →
  expectedType verdict = None.
Proof.
  unfold checkInvalidAggregateFilter.
  destruct (checkInvalidAggregateFilterValue tc filterType key value)
    as [wrong|] eqn:Hvalue.
  - intros [= <-]. revert Hvalue. unfold checkInvalidAggregateFilterValue.
    destruct filterType; case_match; by intros [= <-].
  - case_match; [|done].
    intros (argIndex & Hcheck)%first_reason_Some.
    by apply validateAggregateParameter_no_hint in Hcheck.
Qed.

(** X8.  Only a [Text] filter is ever given expected types: the verdict
    of a filter of any other type, if it has one, carries a reason
    alone, and so the operators offered for the token are those of its
    own type and of the types interchangeable with it. *)
Theorem tokenFilter_expectedType_only_text {R : JSRuntime} {I : Imports}
    (tc : TokenConverter) (filter : FilterType.t) (key : keyT filter)
    (value : valueT filter) (operator : option TermOperator.t)
    (negated : bool) :
  filter ≠ FilterType.Text →
  let filterToken := tokenFilter tc filter key value operator negated in
  (∀ verdict, invalid filterToken = Some verdict →
              expectedType verdict = None)
  ∧ getValidOps filterToken = valid_ops_of filter.
Proof.
  intros Hfilter filterToken.
  assert (Hnone : ∀ verdict, invalid filterToken = Some verdict →
                             expectedType verdict = None).
  { subst filterToken. cbn [invalid tokenFilter].
    destruct filter; try done; simpl; intros verdict;
      first [ apply checkInvalidTextValue_no_hint
            | apply checkInvalidInFilter_no_hint
            | apply checkInvalidAggregateFilter_no_hint ]. }
  split; [exact Hnone|].
  rewrite getValidOps_no_hint; [done|].
  destruct (invalid filterToken) as [verdict|] eqn:Hinvalid; [|done].
  simpl. by apply Hnone.
Qed.

Lemma tokenFilter_expectedType_only_text_witness :
  getValidOps
    (tokenFilter (sample_converter "stack.colno:[1,,2]") FilterType.NumericIn
       (simple_key "stack.colno") (number_list [Some "1"; None; Some "2"])
       None false)
  = [].
Proof.
  apply (tokenFilter_expectedType_only_text
           (sample_converter "stack.colno:[1,,2]") FilterType.NumericIn
           (simple_key "stack.colno")
           (number_list [Some "1"; None; Some "2"]) None false).
  discriminate.
Defined.

(** ** Text filters and the grammar predicate *)

(** The verdict on a text filter, by the type of its key. *)
Lemma checkInvalidTextFilter_simple {I : Imports} (tc : TokenConverter)
    (k : KeySimple.t) (value : ValueText.t) :
  let keyName := getKeyName (KSimple k) in
  checkInvalidTextFilter tc (TextKeySimple k) value
  = if keyIsAggregate keyName then checkInvalidTextValue value
    else if isDuration tc keyName then
      Some {| reason :=
                "Invalid duration. Expected number followed by duration unit suffix";
              expectedType := Some [FilterType.Duration] |}
    else if isDate tc keyName then
      Some {| reason :=
                "Invalid date format. Expected +/-duration (e.g. +1h) or ISO 8601-like (e.g. "
                +:+ String.substring 0 10 nowISOString +:+ " or "
                +:+ nowISOString +:+ ")";
              expectedType :=
                Some [FilterType.Date; FilterType.SpecificDate;
                      FilterType.RelativeDate] |}
    else if isBoolean tc keyName then
      Some {| reason := "Invalid boolean. Expected true, 1, false, or 0.";
              expectedType := Some [FilterType.Boolean] |}
    else if isNumeric tc keyName then
      Some {| reason :=
                "Invalid number. Expected number then optional k, m, or b suffix (e.g. 500k)";
              expectedType :=
                Some [FilterType.Numeric; FilterType.NumericIn] |}
    else checkInvalidTextValue value.
Proof.
  intros keyName. unfold checkInvalidTextFilter.
  change (getKeyName (key_of_text_key (TextKeySimple k))) with keyName.
  destruct (keyIsAggregate keyName); [done|]. cbn [negb].
  by repeat case_match.
Qed.

(** X9.  The expected types of a text filter agree with the grammar
    predicate: when a text filter is given expected types, its key is a
    simple key that is not a function, the list is not empty, and the
    predicate admits every type of the list for that key (so the hint
    names only filter forms the key can really take). *)
Theorem checkInvalidTextFilter_hint_accepted {I : Imports}
    (tc : TokenConverter) (key : TextKey) (value : ValueText.t)
    (verdict : InvalidFilter) (types : list FilterType.t) :
  checkInvalidTextFilter tc key value = Some verdict →
  expectedType verdict = Some types →
  (∃ k, key = TextKeySimple k)
  ∧ keyIsAggregate (getKeyName (key_of_text_key key)) = false
  ∧ types ≠ []
  ∧ ∀ type, type ∈ types →
            predicateFilter tc type (key_of_text_key key) = true.
Proof.
  destruct key as [k | tag].
  - rewrite checkInvalidTextFilter_simple. cbn [key_of_text_key].
    unfold predicateFilter.
    destruct (keyIsAggregate (getKeyName (KSimple k))) eqn:Hfunction.
    { intros Hverdict%checkInvalidTextValue_no_hint. congruence. }
    intros Hverdict Htypes.
    split; [by exists k|]. split; [done|].
    destruct (isDuration tc (getKeyName (KSimple k))) eqn:Hduration;
      [|destruct (isDate tc (getKeyName (KSimple k))) eqn:Hdate;
        [|destruct (isBoolean tc (getKeyName (KSimple k))) eqn:Hboolean;
          [|destruct (isNumeric tc (getKeyName (KSimple k))) eqn:Hnumeric]]].
    5: { apply checkInvalidTextValue_no_hint in Hverdict. congruence. }
    all: injection Hverdict as <-; injection Htypes as <-; split; [done|];
      intros type Hin; repeat (apply elem_of_cons in Hin as [-> | Hin]);
      try done; by apply elem_of_nil in Hin.
  - intros Hverdict%checkInvalidTextValue_no_hint. congruence.
Qed.

Lemma checkInvalidTextFilter_hint_accepted_witness :
  predicateFilter (sample_converter "timestamp:soon") FilterType.RelativeDate
    (KSimple (simple_key "timestamp"))
  = true.
Proof.
  assert (Hverdict :
            checkInvalidTextFilter (sample_converter "timestamp:soon")
              (TextKeySimple (simple_key "timestamp"))
              (text_value "soon" false)
            = Some {| reason :=
                        "Invalid date format. Expected +/-duration (e.g. +1h) or ISO 8601-like (e.g. 2022-08-15 or 2022-08-15T10:30:00.000Z)";
                      expectedType :=
                        Some [FilterType.Date; FilterType.SpecificDate;
                              FilterType.RelativeDate] |})
    by (vm_compute; reflexivity).
  destruct (checkInvalidTextFilter_hint_accepted (I := sample_catalog)
              _ _ _ _ _ Hverdict eq_refl) as (_ & _ & _ & Hadmitted).
  apply (Hadmitted FilterType.RelativeDate).
  apply list_elem_of_further, list_elem_of_further, list_elem_of_here.
Defined.

(** X10.  The operators offered for a text filter follow the type of its
    key, not the text filter itself: on a simple key that is not a
    function, a duration, date or numeric key offers all the operators,
    while a boolean key that is neither a duration nor a date key, and a
    key of none of these types, offer the two basic ones; so do a
    function key and an explicit tag. *)
Theorem getValidOps_text_filter {R : JSRuntime} {I : Imports}
    (tc : TokenConverter) (value : ValueText.t)
    (operator : option TermOperator.t) (negated : bool) :
  (∀ k : KeySimple.t,
     let keyName := getKeyName (KSimple k) in
     getValidOps
       (tokenFilter tc FilterType.Text (TextKeySimple k) value operator
          negated)
     = if keyIsAggregate keyName then basicOperators
       else if isDuration tc keyName || isDate tc keyName then allOperators
       else if isBoolean tc keyName then basicOperators
       else if isNumeric tc keyName then allOperators
       else basicOperators)
  ∧ ∀ tag : KeyExplicitTag.t,
      getValidOps
        (tokenFilter tc FilterType.Text (TextKeyExplicitTag tag) value
           operator negated)
      = basicOperators.
Proof.
  assert (Hplain : ∀ key,
            checkInvalidTextFilter tc key value = checkInvalidTextValue value →
            getValidOps
              (tokenFilter tc FilterType.Text key value operator negated)
            = basicOperators).
  { intros key Hverdict. rewrite getValidOps_no_hint; [done|].
    cbn [invalid tokenFilter checkInvalidFilter]. rewrite Hverdict.
    destruct (checkInvalidTextValue value) as [verdict|] eqn:Hvalue; [|done].
    simpl. by apply checkInvalidTextValue_no_hint in Hvalue. }
  split; [|intros tag; by apply Hplain].
  intros k keyName.
  pose proof (checkInvalidTextFilter_simple tc k value) as Hverdict.
  cbn zeta in Hverdict. fold keyName in Hverdict.
  destruct (keyIsAggregate keyName); [by apply Hplain|].
  unfold getValidOps. cbn [invalid tokenFilter checkInvalidFilter].
  destruct (isDuration tc keyName); [by rewrite Hverdict|].
  destruct (isDate tc keyName); [by rewrite Hverdict|].
  destruct (isBoolean tc keyName); [by rewrite Hverdict|].
  destruct (isNumeric tc keyName); [by rewrite Hverdict|].
  by apply Hplain.
Qed.

(** ** The key sets of the default configuration *)

Lemma elem_of_getKeySet {I : Imports} (allowGenericAggregations : bool)
    (valueTypes : list FieldValueType.t)
    (preFilter : option (string -> bool)) (key : string) :
  key ∈ getKeySet allowGenericAggregations valueTypes preFilter
  ↔ key ∈ FIELDS
    ∧ (∀ f, preFilter = Some f → f key = true)
    ∧ ∃ definition,
        getFieldDefinition key = Some definition
        ∧ ((∃ type, valueType definition = Some type ∧ type ∈ valueTypes)
           ∨ (valueType definition = None
              ∧ allowGenericAggregations = true
              ∧ kind definition = FieldKind.FUNCTION)).
Proof.
  unfold getKeySet. rewrite elem_of_list_to_set, list_elem_of_In, filter_In.
  assert (Hkeys : In key (match preFilter with
                          | Some f => List.filter f FIELDS
                          | None => FIELDS
                          end)
                  ↔ key ∈ FIELDS ∧ ∀ f, preFilter = Some f → f key = true).
  { destruct preFilter as [f|].
    - rewrite filter_In, <-list_elem_of_In. split.
      + intros [Hin Hf]. split; [done|]. by intros ? [= <-].
      + intros [Hin Hf]. split; [done|]. by apply Hf.
    - rewrite <-list_elem_of_In. split; [by intros ? | by intros [? _]]. }
  rewrite Hkeys.
  destruct (getFieldDefinition key) as [definition|].
  - destruct (valueType definition) as [type|] eqn:Htype.
    + rewrite bool_decide_eq_true. split.
      * intros [[Hin Hf] Hmember]. split; [done|]. split; [done|].
        exists definition. split; [done|]. left. by exists type.
      * intros (Hin & Hf & definition' & [= <-]
                & [(type' & Htype' & Hmember) | (Hnone & _)]); [|congruence].
        split; [done|]. congruence.
    + rewrite andb_true_iff, bool_decide_eq_true. split.
      * intros [[Hin Hf] [Hallow Hkind]]. split; [done|]. split; [done|].
        exists definition. split; [done|]. by right.
      * intros (Hin & Hf & definition' & [= <-]
                & [(type' & Htype' & _) | (_ & Hallow & Hkind)]);
          [congruence | done].
  - split; [by intros [_ ?] | by intros (_ & _ & ? & ? & _)].
Qed.

Lemma elem_of_getKeySet_typed {I : Imports}
    (allowGenericAggregations : bool) (valueTypes : list FieldValueType.t)
    (preFilter : option (string -> bool)) (key : string)
    (definition : FieldDefinition) (type : FieldValueType.t) :
  key ∈ FIELDS → getFieldDefinition key = Some definition →
  valueType definition = Some type →
  (∀ f, preFilter = Some f → f key = true) →
  (key ∈ getKeySet allowGenericAggregations valueTypes preFilter
   ↔ type ∈ valueTypes).
Proof.
  intros Hin Hdefinition Htype Hpre. rewrite elem_of_getKeySet. split.
  - intros (_ & _ & definition' & Hdefinition'
            & [(type' & Htype' & Hmember) | (Hnone & _)]); congruence.
  - intros Hmember. split; [done|]. split; [done|].
    exists definition. split; [done|]. left. by exists type.
Qed.

Lemma elem_of_getKeySet_generic {I : Imports}
    (valueTypes : list FieldValueType.t) (key : string)
    (definition : FieldDefinition) :
  key ∈ FIELDS → getFieldDefinition key = Some definition →
  valueType definition = None → kind definition = FieldKind.FUNCTION →
  key ∈ getKeySet true valueTypes None.
Proof.
  intros Hin Hdefinition Hnone Hkind. rewrite elem_of_getKeySet.
  split; [done|]. split; [done|]. exists definition. split; [done|].
  by right.
Qed.

(** X11.  The key sets of the default configuration, for a key of
    [FIELDS] with a definition: a definition with a value type puts the
    key into the one typed set of that type (number and integer both
    into the numeric keys) and, among the text operator keys, only string
    keys that allow text operators; a function without a value type is
    in all five typed sets at once, and never a text operator key.  A
    key outside [FIELDS] is in no set. *)
Theorem defaultConfig_key_sets {I : Imports} (key : string) :
  (∀ definition type,
     key ∈ FIELDS → getFieldDefinition key = Some definition →
     valueType definition = Some type →
     (key ∈ durationKeys defaultConfig ↔ type = FieldValueType.DURATION)
     ∧ (key ∈ percentageKeys defaultConfig
        ↔ type = FieldValueType.PERCENTAGE)
     ∧ (key ∈ numericKeys defaultConfig
        ↔ type = FieldValueType.NUMBER ∨ type = FieldValueType.INTEGER)
     ∧ (key ∈ dateKeys defaultConfig ↔ type = FieldValueType.DATE)
     ∧ (key ∈ booleanKeys defaultConfig ↔ type = FieldValueType.BOOLEAN)
     ∧ (key ∈ textOperatorKeys defaultConfig
        ↔ type = FieldValueType.STRING
          ∧ allowTextOperators definition = Some true))
  ∧ (∀ definition,
       key ∈ FIELDS → getFieldDefinition key = Some definition →
       valueType definition = None → kind definition = FieldKind.FUNCTION →
       key ∈ durationKeys defaultConfig ∧ key ∈ percentageKeys defaultConfig
       ∧ key ∈ numericKeys defaultConfig ∧ key ∈ dateKeys defaultConfig
       ∧ key ∈ booleanKeys defaultConfig
       ∧ (key ∉ textOperatorKeys defaultConfig))
  ∧ (key ∉ FIELDS →
     (key ∉ durationKeys defaultConfig)
     ∧ (key ∉ percentageKeys defaultConfig)
     ∧ (key ∉ numericKeys defaultConfig) ∧ (key ∉ dateKeys defaultConfig)
     ∧ (key ∉ booleanKeys defaultConfig)
     ∧ (key ∉ textOperatorKeys defaultConfig)).
Proof.
  unfold defaultConfig. cbn [durationKeys percentageKeys numericKeys dateKeys
                             booleanKeys textOperatorKeys].
  split; [|split].
  - intros definition type Hin Hdefinition Htype.
    rewrite !(elem_of_getKeySet_typed _ _ None _ _ _ Hin Hdefinition Htype)
      by done.
    rewrite !elem_of_cons, !elem_of_nil.
    do 5 (split; [tauto|]). rewrite elem_of_getKeySet. split.
    + intros (_ & Hpre & definition' & Hdefinition'
              & [(type' & Htype' & Hmember) | (Hnone & _)]); [|congruence].
      split.
      * apply elem_of_cons in Hmember as [-> | ?%elem_of_nil]; [|done].
        congruence.
      * specialize (Hpre _ eq_refl). simpl in Hpre.
        rewrite Hdefinition in Hpre. simpl in Hpre.
        by destruct (allowTextOperators definition) as [[]|].
    + intros [-> Hallow]. split; [done|]. split.
      * intros f [= <-]. rewrite Hdefinition. simpl. by rewrite Hallow.
      * exists definition. split; [done|]. left.
        exists FieldValueType.STRING. split; [done | apply list_elem_of_here].
  - intros definition Hin Hdefinition Hnone Hkind.
    repeat (split; [by eapply elem_of_getKeySet_generic|]).
    rewrite elem_of_getKeySet.
    intros (_ & _ & definition' & Hdefinition'
            & [(type' & Htype' & _) | (_ & ? & _)]); congruence.
  - intros Hnot. rewrite !elem_of_getKeySet.
    repeat split; by intros [? _].
Qed.

Ltac elem_of_list :=
  repeat first [apply list_elem_of_here | apply list_elem_of_further].

Lemma defaultConfig_key_sets_witness :
  "p95" ∈ durationKeys defaultConfig
  ∧ "p95" ∈ dateKeys defaultConfig
  ∧ ("transaction.duration" ∈ durationKeys defaultConfig
     ↔ FieldValueType.DURATION = FieldValueType.DURATION)
  ∧ "nothing" ∉ numericKeys defaultConfig.
Proof.
  pose proof (defaultConfig_key_sets (I := sample_catalog) "p95")
    as (_ & Hgeneric & _).
  destruct (Hgeneric (function None) ltac:(elem_of_list)
              ltac:(vm_compute; reflexivity) eq_refl eq_refl)
    as (Hduration & _ & _ & Hdate & _).
  split; [exact Hduration|]. split; [exact Hdate|]. split.
  - apply (proj1 (defaultConfig_key_sets (I := sample_catalog)
                    "transaction.duration")
             (field FieldValueType.DURATION) FieldValueType.DURATION);
      [elem_of_list | vm_compute; reflexivity | reflexivity].
  - apply (proj2 (proj2 (defaultConfig_key_sets (I := sample_catalog)
                           "nothing"))).
    intros Hin. repeat (apply elem_of_cons in Hin as [? | Hin]; [discriminate|]).
    by apply elem_of_nil in Hin.
Defined.

(** ** Value types of aggregates under the default configuration *)

(** X12.  With the default configuration, for a function of [FIELDS]
    that is no measurement and no span operation breakdown: a function
    without a value type passes the value type check of every aggregate
    filter type; a function with a value type passes exactly the filter
    types of its own type (number and integer functions the numeric
    one), and is told otherwise what it returns and which value is not
    valid. *)
Theorem checkInvalidAggregateFilterValue_defaultConfig {R : JSRuntime}
    {I : Imports} (tc : TokenConverter) (filterType : AggregateFilter.t)
    (key : KeyAggregate.t) (value : valueT filterType)
    (definition : FieldDefinition) :
  let keyName := KeySimple.text (KeyAggregate.name key) in
  let verdict := checkInvalidAggregateFilterValue tc filterType key value in
  tc_config tc = defaultConfig →
  keyName ∈ FIELDS → getFieldDefinition keyName = Some definition →
  (valueType definition = None → kind definition = FieldKind.FUNCTION →
   verdict = None)
  ∧ ∀ type,
      valueType definition = Some type →
      isMeasurement keyName = false →
      isSpanOperationBreakdownField keyName = false →
      measurementType keyName ≠ "duration" →
      (verdict = None ↔ type ∈ family filterType)
      ∧ (type ∉ family filterType →
         verdict
         = Some {| reason :=
                     "'" +:+ keyName +:+ "' returns a "
                     +:+ FieldValueType.to_string type +:+ "; '"
                     +:+ value_text value +:+ "' is not valid here.";
                   expectedType := None |}).
Proof.
  intros keyName verdict Hconfig Hin Hdefinition. subst verdict.
  unfold checkInvalidAggregateFilterValue. fold keyName.
  unfold isDate, isDuration, isPercentage, isNumeric, render_valueType.
  rewrite Hconfig, Hdefinition.
  unfold defaultConfig. cbn [durationKeys percentageKeys numericKeys dateKeys].
  split.
  - intros Hnone Hkind.
    pose proof (λ types, elem_of_getKeySet_generic types keyName definition
                           Hin Hdefinition Hnone Hkind) as Hgeneric.
    destruct filterType;
      by rewrite (bool_decide_eq_true_2 _ (Hgeneric _)).
  - intros type Htype Hmeasurement Hspan Hduration.
    pose proof (λ types, elem_of_getKeySet_typed true types None keyName
                           definition type Hin Hdefinition Htype
                           ltac:(done)) as Htyped.
    rewrite Hmeasurement, Hspan.
    apply String.eqb_neq in Hduration. rewrite Hduration.
    rewrite !orb_false_r. cbn [mbind option_bind]. rewrite Htype.
    destruct filterType; cbn [family];
      rewrite (bool_decide_ext _ _ (Htyped _));
      case_bool_decide as Hfits; cbn [negb]; by split.
Qed.

Lemma checkInvalidAggregateFilterValue_defaultConfig_witness :
  checkInvalidAggregateFilterValue (sample_converter "p95():>500ms")
    AggregateFilter.AggregateDuration (aggregate_key "p95" [])
    (duration_value "500" "ms")
  = None
  ∧ checkInvalidAggregateFilterValue (sample_converter "count():>500ms")
      AggregateFilter.AggregateDuration (aggregate_key "count" [])
      (duration_value "500" "ms")
    = Some {| reason := "'count' returns a number; '500ms' is not valid here.";
              expectedType := None |}.
Proof.
  split.
  - apply (checkInvalidAggregateFilterValue_defaultConfig
             (I := sample_catalog) (sample_converter "p95():>500ms")
             AggregateFilter.AggregateDuration (aggregate_key "p95" [])
             (duration_value "500" "ms") (function None));
      [reflexivity | elem_of_list | vm_compute; reflexivity
      | reflexivity | reflexivity].
  - apply (proj2 (checkInvalidAggregateFilterValue_defaultConfig
                    (I := sample_catalog) (sample_converter "count():>500ms")
                    AggregateFilter.AggregateDuration
                    (aggregate_key "count" []) (duration_value "500" "ms")
                    (function (Some FieldValueType.NUMBER))
                    eq_refl ltac:(elem_of_list)
                    ltac:(vm_compute; reflexivity))
             FieldValueType.NUMBER);
      [reflexivity | reflexivity | reflexivity | discriminate |].
    intros Hin. apply elem_of_cons in Hin as [? | Hin]; [discriminate|].
    by apply elem_of_nil in Hin.
Defined.

(** ** The value of a text filter *)

Lemma unescaped_quote_after_true (prev : option ascii) (s : string) :
  unescaped_quote_after prev s = true
  ↔ ∃ i, String.get i s = Some dquote
         ∧ match i with
           | 0 => prev ≠ Some backslash
           | S j => String.get j s ≠ Some backslash
           end.
Proof.
  revert prev. induction s as [|c s IH]; intros prev.
  - simpl. split; [done | by intros ([|?] & ? & _)].
  - cbn [unescaped_quote_after]. rewrite orb_true_iff, andb_true_iff, IH.
    rewrite Ascii.eqb_eq. split.
    + intros [[-> Hprev] | (i & Hget & Hbefore)].
      * exists 0. split; [done|]. destruct prev as [p|]; [|done].
        apply negb_true_iff, Ascii.eqb_neq in Hprev. congruence.
      * exists (S i). split; [done|]. destruct i as [|j]; simpl; [|done].
        congruence.
    + intros ([|i] & Hget & Hbefore).
      * left. simpl in Hget. split; [congruence|].
        destruct prev as [p|]; [|done].
        apply negb_true_iff, Ascii.eqb_neq. congruence.
      * right. exists i. split; [done|]. destruct i as [|j]; simpl in *;
          [congruence | done].
Qed.

(** X13.  The value of a text filter: a quoted value is never invalid;
    an unquoted value is valid exactly when it is not empty and each of
    its double quotes stands right after a backslash; an unquoted empty
    value gets the reason that a filter must have a value, a quote
    without its backslash the reason about quotes. *)
Theorem checkInvalidTextValue_valid (value : ValueText.t) :
  (ValueText.quoted value = true → checkInvalidTextValue value = None)
  ∧ (ValueText.quoted value = false →
     (checkInvalidTextValue value = None
      ↔ ValueText.value value ≠ ""
        ∧ ∀ i, String.get i (ValueText.value value) = Some dquote →
               ∃ j, i = S j
                    ∧ String.get j (ValueText.value value) = Some backslash)
     ∧ (ValueText.value value = "" →
        checkInvalidTextValue value
        = Some {| reason := "Filter must have a value";
                  expectedType := None |})
     ∧ ((∃ i, String.get i (ValueText.value value) = Some dquote
              ∧ ∀ j, i = S j
                     → String.get j (ValueText.value value) ≠ Some backslash) →
        checkInvalidTextValue value
        = Some {| reason := "Quotes must enclose text or be escaped";
                  expectedType := None |})).
Proof.
  unfold checkInvalidTextValue. split; [by intros ->|]. intros ->.
  cbn [negb andb].
  destruct (has_unescaped_quote (ValueText.value value)) eqn:Hquote.
  - apply unescaped_quote_after_true in Hquote as (i & Hget & Hbefore).
    split; [|split; [|done]].
    + split; [done|]. intros [_ Hall].
      destruct (Hall i Hget) as (j & -> & Hj). by destruct Hbefore.
    + intros Hempty. rewrite Hempty in Hget. by destruct i.
  - assert (Hescaped : ∀ i,
              String.get i (ValueText.value value) = Some dquote →
              ∃ j, i = S j
                   ∧ String.get j (ValueText.value value) = Some backslash).
    { intros i Hget. apply not_true_iff_false in Hquote.
      destruct i as [|j].
      - destruct Hquote. apply unescaped_quote_after_true. by exists 0.
      - exists j. split; [done|].
        destruct (decide (String.get j (ValueText.value value)
                          = Some backslash)) as [? | Hne]; [done|].
        destruct Hquote. apply unescaped_quote_after_true. by exists (S j). }
    split; [|split].
    + destruct (String.eqb_spec (ValueText.value value) "") as [Hempty | Hne].
      * split; [done | by intros [? _]].
      * split; [done|]. by intros _.
    + intros ->. reflexivity.
    + intros (i & Hget & Hbefore).
      destruct (Hescaped i Hget) as (j & -> & Hj). by destruct (Hbefore j).
Qed.

Lemma checkInvalidTextValue_valid_witness :
  checkInvalidTextValue (text_value "" true) = None
  ∧ checkInvalidTextValue (text_value "" false)
    = Some {| reason := "Filter must have a value"; expectedType := None |}
  ∧ checkInvalidTextValue
      (text_value ("say " +:+ String dquote "hi") false)
    = Some {| reason := "Quotes must enclose text or be escaped";
              expectedType := None |}.
Proof.
  split; [|split].
  - apply (proj1 (checkInvalidTextValue_valid (text_value "" true))).
    reflexivity.
  - apply (proj1 (proj2 (proj2 (checkInvalidTextValue_valid
                                  (text_value "" false))
                           eq_refl))).
    reflexivity.
  - apply (proj2 (proj2 (proj2 (checkInvalidTextValue_valid
                                  (text_value ("say " +:+ String dquote "hi")
                                     false))
                           eq_refl))).
    exists 4. split; [reflexivity|]. intros j [= <-]. discriminate.
Defined.

(** ** Typed keys and the text filter *)

(** X14.  A simple key that is not a function and for which the grammar
    predicate admits one of the typed filter forms never gives a valid
    text filter: the text filter on that key, whatever its value, is
    invalid and carries expected types.  For a key that is a function
    the predicate admits none of the typed forms, nor a list of texts,
    [has] or [is]. *)
Theorem typed_key_text_filter_invalid {R : JSRuntime} {I : Imports}
    (tc : TokenConverter) (k : KeySimple.t) (type : FilterType.t) :
  let keyName := getKeyName (KSimple k) in
  (keyIsAggregate keyName = false → type ∈ typed_filters →
   predicateFilter tc type (KSimple k) = true →
   ∀ value operator negated,
     ∃ verdict types,
       invalid (tokenFilter tc FilterType.Text (TextKeySimple k) value
                  operator negated)
       = Some verdict
       ∧ expectedType verdict = Some types)
  ∧ (keyIsAggregate keyName = true →
     type ∈ typed_filters ++ [FilterType.TextIn; FilterType.Has;
                              FilterType.Is] →
     predicateFilter tc type (KSimple k) = false).
Proof.
  intros keyName. split.
  - intros Hfield Htype Hadmitted value operator negated.
    cbn [invalid tokenFilter checkInvalidFilter].
    rewrite checkInvalidTextFilter_simple. fold keyName. rewrite Hfield.
    unfold predicateFilter in Hadmitted. fold keyName in Hadmitted.
    rewrite Hfield in Hadmitted.
    destruct (isDuration tc keyName); [by eexists _, _|].
    destruct (isDate tc keyName); [by eexists _, _|].
    destruct (isBoolean tc keyName); [by eexists _, _|].
    destruct (isNumeric tc keyName); [by eexists _, _|].
    unfold typed_filters in Htype.
    repeat (apply elem_of_cons in Htype as [-> | Htype]; [done|]).
    by apply elem_of_nil in Htype.
  - intros Hfunction Htype. unfold predicateFilter. fold keyName.
    rewrite Hfunction. unfold typed_filters in Htype. simpl in Htype.
    repeat (apply elem_of_cons in Htype as [-> | Htype]; [done|]).
    by apply elem_of_nil in Htype.
Qed.

Lemma typed_key_text_filter_invalid_witness :
  (∃ verdict types,
     invalid (tokenFilter (sample_converter "stack.colno:many")
                FilterType.Text (TextKeySimple (simple_key "stack.colno"))
                (text_value "many" false) None false)
     = Some verdict
     ∧ expectedType verdict = Some types)
  ∧ predicateFilter (sample_converter "count:5") FilterType.Numeric
      (KSimple (simple_key "count"))
    = false.
Proof.
  split.
  - apply (proj1 (typed_key_text_filter_invalid (I := sample_catalog)
                    (sample_converter "stack.colno:many")
                    (simple_key "stack.colno") FilterType.Numeric));
      [vm_compute; reflexivity | elem_of_list | vm_compute; reflexivity].
  - apply (proj2 (typed_key_text_filter_invalid (I := sample_catalog)
                    (sample_converter "count:5") (simple_key "count")
                    FilterType.Numeric));
      [vm_compute; reflexivity | elem_of_list].
Defined.

(** ** Joining terms *)

Lemma append_assoc (s r u : string) : (s +:+ r) +:+ u = s +:+ (r +:+ u).
Proof.
  induction s as [|c s IH]; [done|]. by rewrite !append_cons, IH.
Qed.

Lemma concat_empty_app (l1 l2 : list string) :
  String.concat "" (l1 ++ l2)
  = String.concat "" l1 +:+ String.concat "" l2.
Proof.
  induction l1 as [|x l1 IH]; [done|].
  rewrite <-app_comm_cons, !concat_empty_cons, IH. by rewrite append_assoc.
Qed.

(** X15.  The shape of [joinQuery]: no terms (null, or an empty array)
    give the empty string whatever the flags, so no leading space stands
    alone; otherwise the result is the optional leading space followed
    by the texts joined with the optional space, also for a single term,
    whose special case changes nothing; and with the default flags
    joining distributes over the concatenation of two arrays of
    terms. *)
Theorem joinQuery_shape {R : JSRuntime} (terms more : ParseResult)
    (leadingSpace additionalSpaceBetween : option bool) :
  joinQuery None leadingSpace additionalSpaceBetween = ""
  ∧ joinQuery (Some []) leadingSpace additionalSpaceBetween = ""
  ∧ (terms ≠ [] →
     joinQuery (Some terms) leadingSpace additionalSpaceBetween
     = (if default false leadingSpace then " " else "")
       +:+ join (if default false additionalSpaceBetween then " " else "")
             (map term_text terms))
  ∧ joinQuery (Some (terms ++ more)) None None
    = joinQuery (Some terms) None None +:+ joinQuery (Some more) None None.
Proof.
  split; [done|]. split; [done|]. split.
  - intros Hterms. destruct terms as [|p0 [|p1 rest]]; done.
  - rewrite (joinQuery_concat (terms ++ more)), (joinQuery_concat terms),
      (joinQuery_concat more) by done.
    by rewrite List.map_app, concat_empty_app.
Qed.

Lemma joinQuery_shape_witness :
  joinQuery (Some sample_terms) (Some true) (Some true)
  = " transaction.duration:hello    AND   message:x".
Proof.
  rewrite (proj1 (proj2 (proj2 (joinQuery_shape sample_terms [] (Some true)
                                  (Some true))))
             ltac:(discriminate)).
  reflexivity.
Defined.

(** ** Lists built by the converter *)

Lemma checkInvalidInFilter_built {V : Type} (item1 : V)
    (items : list (ListItem V)) :
  checkInvalidInFilter
    ({| separator := ""; entry := Some item1 |} :: map listJoiner items)
  = None
  ↔ ∀ item, item ∈ items → item_value item ≠ None.
Proof.
  unfold checkInvalidInFilter. cbn [existsb entry orb].
  destruct (existsb (λ item, match entry item with
                             | Some _ => false
                             | None => true
                             end) (map listJoiner items)) eqn:Hexists.
  - split; [done|]. intros Hall.
    apply existsb_exists in Hexists as (entry' & Hin & Hnull).
    apply in_map_iff in Hin as (item & <- & Hin).
    apply list_elem_of_In in Hin. specialize (Hall item Hin).
    simpl in Hnull. by destruct (item_value item).
  - split; [|done]. intros _ item Hin Hnull.
    apply not_true_iff_false in Hexists. destruct Hexists.
    apply existsb_exists. exists (listJoiner item).
    split; [apply in_map; by apply list_elem_of_In|]. simpl. by rewrite Hnull.
Qed.

(** X16.  An in-list as the converter builds it always starts with its
    first item, so it has one entry more than there are later elements
    and is never empty, and the first item never makes the filter
    invalid: a [TextIn] or [NumericIn] filter on such a list is valid
    exactly when none of the later elements is missing. *)
Theorem tokenFilter_built_in_lists {R : JSRuntime} {I : Imports}
    (tc listConverter : TokenConverter) (operator : option TermOperator.t)
    (negated : bool) :
  (∀ (key : keyT FilterType.TextIn) (item1 : ValueText.t)
     (items : list (ListItem ValueText.t)),
     let list := tokenValueTextList listConverter item1 items in
     length (ValueTextList.items list) = S (length items)
     ∧ (invalid (tokenFilter tc FilterType.TextIn key list operator negated)
        = None
        ↔ ∀ item, item ∈ items → item_value item ≠ None))
  ∧ (∀ (key : keyT FilterType.NumericIn) (item1 : ValueNumber.t)
       (items : list (ListItem ValueNumber.t)),
       let list := tokenValueNumberList listConverter item1 items in
       length (ValueNumberList.items list) = S (length items)
       ∧ (invalid (tokenFilter tc FilterType.NumericIn key list operator
                     negated)
          = None
          ↔ ∀ item, item ∈ items → item_value item ≠ None)).
Proof.
  split; intros key item1 items list; subst list;
    (split; [simpl; by rewrite length_map|]);
    apply checkInvalidInFilter_built.
Qed.

(** X17.  An argument list as the converter builds it holds at least one
    argument, so a known aggregate without parameters is valid (its
    value type fitting) exactly when it is written without an argument
    list; with one, whatever it holds, the reason is that it is
    expecting 0 arguments. *)
Theorem checkInvalidAggregateFilter_no_parameters {R : JSRuntime}
    {I : Imports} (tc keyConverter argsConverter : TokenConverter)
    (filterType : AggregateFilter.t) (name : KeySimple.t)
    (before after : Spaces.t) (value : valueT filterType)
    (aggregation : Aggregation) :
  AGGREGATIONS !! KeySimple.text name = Some aggregation →
  parameters aggregation = [] →
  (∀ args, checkInvalidAggregateFilterValue tc filterType
             (tokenKeyAggregate keyConverter name args before after) value
           = None) →
  checkInvalidAggregateFilter tc filterType
    (tokenKeyAggregate keyConverter name None before after) value
  = None
  ∧ ∀ arg1 args,
      (1 ≤ numProvidedArguments
             (tokenKeyAggregate keyConverter name
                (Some (tokenKeyAggregateArgs argsConverter arg1 args))
                before after))%nat
      ∧ checkInvalidAggregateFilter tc filterType
          (tokenKeyAggregate keyConverter name
             (Some (tokenKeyAggregateArgs argsConverter arg1 args))
             before after)
          value
        = Some {| reason := KeySimple.text name +:+ " is expecting 0 arguments.";
                  expectedType := None |}.
Proof.
  intros Hknown Hnone Hvalue. split.
  - rewrite (checkInvalidAggregateFilter_known _ _ _ _ aggregation) by done.
    by rewrite Hnone.
  - intros arg1 args. split; [unfold numProvidedArguments; simpl; lia|].
    rewrite (checkInvalidAggregateFilter_known _ _ _ _ aggregation) by done.
    by rewrite Hnone.
Qed.

Lemma checkInvalidAggregateFilter_no_parameters_witness :
  checkInvalidAggregateFilter (I := rate_catalog) rate_converter
    AggregateFilter.AggregateNumeric
    (tokenKeyAggregate rate_converter (tokenKeySimple rate_converter "epm" false)
       (Some (tokenKeyAggregateArgs rate_converter
                (tokenKeyAggregateParam rate_converter "transaction" false)
                []))
       (spaces "") (spaces ""))
    (tokenValueNumber rate_converter "5" "")
  = Some {| reason := "epm is expecting 0 arguments."; expectedType := None |}.
Proof.
  apply (proj2 (checkInvalidAggregateFilter_no_parameters (I := rate_catalog)
                  rate_converter rate_converter rate_converter
                  AggregateFilter.AggregateNumeric
                  (tokenKeySimple rate_converter "epm" false) (spaces "")
                  (spaces "") (tokenValueNumber rate_converter "5" "")
                  {| parameters := [] |}
                  ltac:(vm_compute; reflexivity) eq_refl
                  ltac:(intros args; vm_compute; reflexivity))
           (tokenKeyAggregateParam rate_converter "transaction" false) []).
Defined.

(** ** Search items *)

Lemma filter_flat_map {A B : Type} (p : B -> bool) (f : A -> list B)
    (l : list A) :
  List.filter p (flat_map f l) = flat_map (λ x, List.filter p (f x)) l.
Proof.
  induction l as [|x l IH]; [done|]. simpl. by rewrite List.filter_app, IH.
Qed.

Lemma filter_all {A : Type} (p : A -> bool) (l : list A) :
  (∀ x, x ∈ l → p x = true) → List.filter p l = l.
Proof.
  induction l as [|x l IH]; [done|]. intros Hall. simpl.
  rewrite (Hall x) by apply list_elem_of_here.
  f_equal. apply IH. intros y Hy. apply Hall. by right.
Qed.

Lemma filterSearchItems_fit {Rest : Type}
    (searchItems : list (SearchItem.t Rest))
    (recentSearchItems : option (list (SearchItem.t Rest)))
    (maxSearchItems : option Z) (q : Z) :
  filterSearchItems searchItems recentSearchItems maxSearchItems (Some q)
  = (flat_map (fit_item q)
       (filterSearchItems searchItems recentSearchItems maxSearchItems
          None).1,
     List.filter (λ value, fits q (SearchItem.value value))
     <$> recentSearchItems).
Proof. unfold filterSearchItems. cbn [fst]. by rewrite filter_flat_map. Qed.

(** What [fit_item] keeps of an item: nothing, or the item with its
    fitting children, at least one where it had an array of children. *)
Lemma fit_item_spec {Rest : Type} (q : Z) (item kept : SearchItem.t Rest) :
  kept ∈ fit_item q item →
  fit_item q item = [kept]
  ∧ SearchItem.ignoreMaxSearchItems kept
    = SearchItem.ignoreMaxSearchItems item
  ∧ SearchItem.value kept = SearchItem.value item
  ∧ SearchItem.rest kept = SearchItem.rest item
  ∧ fits q (SearchItem.value kept) = true
  ∧ match SearchItem.children item with
    | None => kept = item
    | Some children =>
        ∃ keptChildren,
          kept = {| SearchItem.value := SearchItem.value item;
                    SearchItem.children := Some keptChildren;
                    SearchItem.ignoreMaxSearchItems :=
                      SearchItem.ignoreMaxSearchItems item;
                    SearchItem.rest := SearchItem.rest item |}
          ∧ keptChildren ≠ []
          ∧ keptChildren
            = List.filter (λ child, fits q (SearchItem.value child)) children
    end.
Proof.
  unfold fit_item, filter_children.
  destruct (SearchItem.children item) as [children|].
  - cbn [SearchItem.children default from_option id].
    destruct (List.filter (λ child, fits q (SearchItem.value child)) children)
      as [|child keptChildren] eqn:Hfilter; cbn [length Nat.eqb List.filter].
    + by intros ?%elem_of_nil.
    + cbn [SearchItem.value].
      destruct (fits q (SearchItem.value item)) eqn:Hfits;
        [|by intros ?%elem_of_nil].
      intros [-> | ?%elem_of_nil]%elem_of_cons; [|done].
      repeat split; try done. by eexists.
  - destruct (fits q (SearchItem.value item)) eqn:Hfits;
      [|by intros ?%elem_of_nil].
    cbn [List.filter]. rewrite Hfits.
    intros [-> | ?%elem_of_nil]%elem_of_cons; done.
Qed.

Lemma fit_item_cases {Rest : Type} (q : Z) (item : SearchItem.t Rest) :
  fit_item q item = [] ∨ ∃ kept, fit_item q item = [kept].
Proof.
  destruct (fit_item q item) as [|kept more] eqn:Hfit; [by left | right].
  exists kept. rewrite <-Hfit.
  apply fit_item_spec. rewrite Hfit. apply list_elem_of_here.
Qed.

(** What [fit_item] makes of an item that fits: the item itself when it
    has no array of children, the item with its fitting children when at
    least one child fits. *)
Lemma fit_item_fitting {Rest : Type} (q : Z) (item : SearchItem.t Rest) :
  fits q (SearchItem.value item) = true →
  match SearchItem.children item with
  | None => fit_item q item = [item]
  | Some children =>
      List.filter (λ child, fits q (SearchItem.value child)) children ≠ [] →
      fit_item q item
      = [ {| SearchItem.value := SearchItem.value item;
             SearchItem.children :=
               Some (List.filter
                       (λ child, fits q (SearchItem.value child)) children);
             SearchItem.ignoreMaxSearchItems :=
               SearchItem.ignoreMaxSearchItems item;
             SearchItem.rest := SearchItem.rest item |} ]
  end.
Proof.
  intros Hfits. unfold fit_item, filter_children.
  destruct (SearchItem.children item) as [children|].
  - cbn [SearchItem.children default from_option id].
    destruct (List.filter (λ child, fits q (SearchItem.value child)) children)
      as [|child keptChildren]; [done|]. intros _.
    cbn [length Nat.eqb List.filter SearchItem.value]. by rewrite Hfits.
  - rewrite Hfits. cbn [List.filter]. by rewrite Hfits.
Qed.

(** X18.  With a number of characters left, every search item
    [filterSearchItems] returns fits it (it has no value, or an empty
    one, or one no longer than the number), an item returned with an
    array of children has at least one child, and all its children fit;
    nothing is made up: each item returned is an item given, with the
    same value and the same other properties, only its children
    filtered.  Nothing that fits is lost either: an item that the
    maximum leaves and that fits is returned, as it is when it has no
    array of children, and with its fitting children when at least one
    of them fits.  Recent search items that were not given stay so, and
    a given list of them comes back as the list of its fitting items, in
    their order. *)
Theorem filterSearchItems_fits {Rest : Type}
    (searchItems : list (SearchItem.t Rest))
    (recentSearchItems : option (list (SearchItem.t Rest)))
    (maxSearchItems : option Z) (queryCharsLeft : Z) :
  let result :=
    filterSearchItems searchItems recentSearchItems maxSearchItems
      (Some queryCharsLeft) in
  let limited :=
    (filterSearchItems searchItems recentSearchItems maxSearchItems None).1 in
  let fit (item : SearchItem.t Rest) :=
    fits queryCharsLeft (SearchItem.value item) in
  (∀ item, item ∈ result.1 →
     fit item = true
     ∧ (∀ children, SearchItem.children item = Some children →
          children ≠ [] ∧ ∀ child, child ∈ children → fit child = true)
     ∧ ∃ given, given ∈ searchItems
                ∧ SearchItem.value item = SearchItem.value given
                ∧ SearchItem.ignoreMaxSearchItems item
                  = SearchItem.ignoreMaxSearchItems given
                ∧ SearchItem.rest item = SearchItem.rest given)
  ∧ (∀ given, given ∈ limited → fit given = true →
       match SearchItem.children given with
       | None => given ∈ result.1
       | Some children =>
           List.filter fit children ≠ [] →
           {| SearchItem.value := SearchItem.value given;
              SearchItem.children := Some (List.filter fit children);
              SearchItem.ignoreMaxSearchItems :=
                SearchItem.ignoreMaxSearchItems given;
              SearchItem.rest := SearchItem.rest given |} ∈ result.1
       end)
  ∧ (maxSearchItems = None → limited = searchItems)
  ∧ (recentSearchItems = None → result.2 = None)
  ∧ (∀ given, recentSearchItems = Some given →
       result.2 = Some (List.filter fit given)).
Proof.
  intros result limited fit. subst result limited fit.
  rewrite filterSearchItems_fit. cbn [fst snd]. split; [|split].
  - intros item (given & Hgiven & Hkept)%list_elem_of_In%in_flat_map.
    apply list_elem_of_In in Hkept.
    apply fit_item_spec in Hkept
      as (_ & Hignore & Hvalue & Hrest & Hfits & Hchildren).
    split; [done|]. split.
    + intros children Hsome.
      destruct (SearchItem.children given) as [givenChildren|] eqn:Hgiven'.
      * destruct Hchildren as (keptChildren & -> & Hnonempty & Hfilter).
        injection Hsome as <-. split; [done|].
        intros child Hchild. rewrite Hfilter in Hchild.
        by apply list_elem_of_In, filter_In in Hchild as [_ ?].
      * subst item. congruence.
    + exists given. split; [|done].
      apply list_elem_of_In in Hgiven. revert Hgiven.
      unfold filterSearchItems. cbn [fst].
      destruct maxSearchItems as [m|]; [|done].
      destruct (0 <? m)%Z; [|done].
      generalize 0. induction searchItems as [|x l IH]; intros index; simpl;
        [done|].
      destruct (within_max m x index).
      * intros [-> | Hin]%elem_of_cons; [by left | right; by eapply IH].
      * intros Hin. right. by eapply IH.
  - intros given Hgiven Hfits.
    pose proof (fit_item_fitting queryCharsLeft given Hfits) as Hkept.
    destruct (SearchItem.children given) as [children|].
    + intros Hnonempty. specialize (Hkept Hnonempty).
      apply list_elem_of_In, in_flat_map. exists given.
      split; [by apply list_elem_of_In|].
      rewrite Hkept. by left.
    + apply list_elem_of_In, in_flat_map. exists given.
      split; [by apply list_elem_of_In|].
      rewrite Hkept. by left.
  - split; [by intros ->|]. split; [by intros ->|].
    by intros given ->.
Qed.

(** The length of a value is counted in UTF-16 code units: an accented
    letter is one long, a character outside the basic plane two. *)
Example fits_code_units :
  fits 1 (Some "é") = true ∧ fits 1 (Some "😀") = false
  ∧ fits 2 (Some "😀") = true.
Proof. done. Qed.

Lemma counted_fit {Rest : Type} (q : Z) (items : list (SearchItem.t Rest)) :
  (length (counted (flat_map (fit_item q) items))
   ≤ length (counted items))%nat.
Proof.
  induction items as [|item items IH]; [done|].
  unfold counted in *. cbn [flat_map]. rewrite List.filter_app, length_app.
  cbn [List.filter].
  destruct (fit_item_cases q item) as [-> | [kept Hkept]].
  - simpl. destruct (negb _); simpl; lia.
  - assert (Hin : kept ∈ fit_item q item)
      by (rewrite Hkept; apply list_elem_of_here).
    apply fit_item_spec in Hin as (_ & Hignore & _).
    rewrite Hkept. cbn [List.filter]. rewrite Hignore.
    destruct (negb _); simpl; lia.
Qed.

Lemma counted_filter_indexed {Rest : Type} (m : Z) (index : nat)
    (items : list (SearchItem.t Rest)) :
  (length (counted (filter_indexed (within_max m) index items))
   ≤ Z.to_nat m - index)%nat.
Proof.
  revert index. induction items as [|item items IH]; intros index; simpl;
    [lia|].
  specialize (IH (S index)). unfold within_max at 1.
  destruct (Z.of_nat index <? m)%Z eqn:Hindex; cbn [orb].
  - apply Z.ltb_lt in Hindex. unfold counted in *. cbn [List.filter].
    destruct (negb _); simpl; lia.
  - destruct (default false (SearchItem.ignoreMaxSearchItems item))
      eqn:Hignore; [|lia].
    unfold counted in *. cbn [List.filter]. rewrite Hignore. simpl. lia.
Qed.

(** X19.  The maximum of [filterSearchItems] bounds the items that do
    not carry [ignoreMaxSearchItems]: with a maximum above zero at most
    that many of them are returned, with or without a number of
    characters left.  A maximum of zero or less, like a missing one, is
    no limit: without a number of characters left the items come back
    as they were given. *)
Theorem filterSearchItems_max {Rest : Type}
    (searchItems : list (SearchItem.t Rest))
    (recentSearchItems : option (list (SearchItem.t Rest)))
    (maxSearchItems queryCharsLeft : option Z) :
  (∀ m, maxSearchItems = Some m → (0 < m)%Z →
     (length
        (counted
           (filterSearchItems searchItems recentSearchItems maxSearchItems
              queryCharsLeft).1)
      ≤ Z.to_nat m)%nat)
  ∧ ((maxSearchItems = None ∨ ∃ m, maxSearchItems = Some m ∧ (m ≤ 0)%Z) →
     filterSearchItems searchItems recentSearchItems maxSearchItems None
     = (searchItems, recentSearchItems)).
Proof.
  split.
  - intros m -> Hm.
    assert (Hfirst : (length
                        (counted
                           (filterSearchItems searchItems recentSearchItems
                              (Some m) None).1)
                      ≤ Z.to_nat m)%nat).
    { unfold filterSearchItems. cbn [fst].
      rewrite (proj2 (Z.ltb_lt 0 m) Hm).
      pose proof (counted_filter_indexed m 0 searchItems). lia. }
    destruct queryCharsLeft as [q|]; [|exact Hfirst].
    rewrite filterSearchItems_fit. cbn [fst].
    etrans; [apply counted_fit | exact Hfirst].
  - intros [-> | (m & -> & Hm)]; [done|].
    unfold filterSearchItems.
    by rewrite (proj2 (Z.ltb_ge 0 m) Hm).
Qed.

Lemma filterSearchItems_max_witness :
  (length
     (counted
        (filterSearchItems
           [search_item "is:unresolved" false; search_item "is:resolved" false;
            search_item "is:ignored" true; search_item "is:assigned" false]
           None (Some 2%Z) (Some 12%Z)).1)
   ≤ 2)%nat
  ∧ filterSearchItems [search_item "is:unresolved" false] None (Some 0%Z) None
    = ([search_item "is:unresolved" false], None).
Proof.
  split.
  - apply (proj1 (filterSearchItems_max
                    [search_item "is:unresolved" false;
                     search_item "is:resolved" false;
                     search_item "is:ignored" true;
                     search_item "is:assigned" false]
                    None (Some 2%Z) (Some 12%Z)) 2%Z eq_refl).
    lia.
  - apply (filterSearchItems_max [search_item "is:unresolved" false] None
             (Some 0%Z) None).
    right. exists 0%Z. split; [reflexivity | lia].
Defined.

Lemma all_within_max_weaken {Rest : Type} (m : Z) (index index' : nat)
    (items : list (SearchItem.t Rest)) :
  (index' ≤ index)%nat → all_within_max m index items →
  all_within_max m index' items.
Proof.
  revert index index'. induction items as [|item items IH];
    intros index index' Hle; [done|].
  intros [Hitem Hitems]. split; [|apply (IH (S index)); [lia | done]].
  unfold within_max in *. apply orb_true_iff in Hitem as [H%Z.ltb_lt | H].
  - apply orb_true_iff. left. apply Z.ltb_lt. lia.
  - by rewrite H, orb_true_r.
Qed.

Lemma all_within_max_filter_indexed {Rest : Type} (m : Z) (index : nat)
    (items : list (SearchItem.t Rest)) :
  all_within_max m index (filter_indexed (within_max m) index items).
Proof.
  revert index. induction items as [|item items IH]; intros index; [done|].
  simpl. destruct (within_max m item index) eqn:Hitem.
  - split; [done | apply IH].
  - apply (all_within_max_weaken m (S index)); [lia | apply IH].
Qed.

Lemma all_within_max_fit {Rest : Type} (m q : Z) (index : nat)
    (items : list (SearchItem.t Rest)) :
  all_within_max m index items →
  all_within_max m index (flat_map (fit_item q) items).
Proof.
  revert index. induction items as [|item items IH]; intros index; [done|].
  intros [Hitem Hitems]. cbn [flat_map].
  destruct (fit_item_cases q item) as [-> | [kept Hkept]].
  - apply (all_within_max_weaken m (S index)); [lia | by apply IH].
  - assert (Hin : kept ∈ fit_item q item)
      by (rewrite Hkept; apply list_elem_of_here).
    apply fit_item_spec in Hin as (_ & Hignore & _).
    rewrite Hkept. split; [|by apply IH].
    unfold within_max in *. by rewrite Hignore.
Qed.

Lemma filter_indexed_all_within_max {Rest : Type} (m : Z) (index : nat)
    (items : list (SearchItem.t Rest)) :
  all_within_max m index items →
  filter_indexed (within_max m) index items = items.
Proof.
  revert index. induction items as [|item items IH]; intros index; [done|].
  intros [Hitem Hitems]. simpl. rewrite Hitem. f_equal. by apply IH.
Qed.

Lemma filter_filter {A : Type} (p : A -> bool) (l : list A) :
  List.filter p (List.filter p l) = List.filter p l.
Proof.
  apply filter_all. intros x Hx.
  apply list_elem_of_In, filter_In in Hx. by destruct Hx.
Qed.

Lemma fit_item_kept {Rest : Type} (q : Z) (item kept : SearchItem.t Rest) :
  kept ∈ fit_item q item → fit_item q kept = [kept].
Proof.
  intros (_ & _ & _ & _ & Hfits & Hchildren)%fit_item_spec.
  unfold fit_item, filter_children.
  destruct (SearchItem.children item) as [children|] eqn:Hitem.
  - destruct Hchildren as (keptChildren & -> & Hnonempty & Hfilter).
    cbn [SearchItem.children SearchItem.value SearchItem.rest
         SearchItem.ignoreMaxSearchItems default from_option id] in *.
    rewrite Hfilter, filter_filter, <-Hfilter.
    destruct keptChildren as [|child keptChildren]; [done|].
    cbn [length Nat.eqb List.filter SearchItem.value]. by rewrite Hfits.
  - subst kept. rewrite Hitem, Hfits. cbn [List.filter]. by rewrite Hfits.
Qed.

Lemma flat_map_fit_twice {Rest : Type} (q : Z)
    (items : list (SearchItem.t Rest)) :
  flat_map (fit_item q) (flat_map (fit_item q) items)
  = flat_map (fit_item q) items.
Proof.
  induction items as [|item items IH]; [done|].
  cbn [flat_map]. rewrite flat_map_app, IH. f_equal.
  destruct (fit_item_cases q item) as [-> | [kept Hkept]]; [done|].
  rewrite Hkept. cbn [flat_map]. rewrite app_nil_r.
  apply (fit_item_kept q item). rewrite Hkept. apply list_elem_of_here.
Qed.

(** X20.  [filterSearchItems] is idempotent: filtering what it returned
    once more, with the same maximum and the same number of characters
    left, returns it unchanged. *)
Theorem filterSearchItems_idempotent {Rest : Type}
    (searchItems : list (SearchItem.t Rest))
    (recentSearchItems : option (list (SearchItem.t Rest)))
    (maxSearchItems queryCharsLeft : option Z) :
  let result :=
    filterSearchItems searchItems recentSearchItems maxSearchItems
      queryCharsLeft in
  filterSearchItems result.1 result.2 maxSearchItems queryCharsLeft = result.
Proof.
  intros result. subst result.
  assert (Hmax : ∀ (items : list (SearchItem.t Rest)) recent,
            (∀ m, maxSearchItems = Some m → (0 < m)%Z →
                  all_within_max m 0 items) →
            filterSearchItems items recent maxSearchItems None
            = (items, recent)).
  { intros items recent Hall. unfold filterSearchItems.
    destruct maxSearchItems as [m|]; [|done].
    destruct (0 <? m)%Z eqn:Hm; [|done].
    rewrite filter_indexed_all_within_max; [done|].
    apply Hall; [done | by apply Z.ltb_lt]. }
  assert (Hfirst : ∀ m, maxSearchItems = Some m → (0 < m)%Z →
            all_within_max m 0
              (filterSearchItems searchItems recentSearchItems maxSearchItems
                 None).1).
  { intros m -> Hm. unfold filterSearchItems. cbn [fst].
    rewrite (proj2 (Z.ltb_lt 0 m) Hm). apply all_within_max_filter_indexed. }
  destruct queryCharsLeft as [q|].
  - rewrite (filterSearchItems_fit searchItems). cbn [fst snd].
    rewrite filterSearchItems_fit, Hmax.
    + cbn [fst]. rewrite flat_map_fit_twice. f_equal.
      destruct recentSearchItems as [recent|]; [|done].
      simpl. by rewrite filter_filter.
    + intros m Hsome Hm. apply all_within_max_fit. by apply Hfirst.
  - destruct (filterSearchItems searchItems recentSearchItems maxSearchItems
                None) as [items recent] eqn:Hresult.
    cbn [fst snd] in *. by apply Hmax.
Qed.

(** ** Search groups *)

Lemma elem_of_flatten_item {Rest : Type} (parent item : SearchItem.t Rest) :
  item ∈ flatten_item parent
  ↔ (item = parent
     ∧ (SearchItem.children parent = None
        ∨ falsy (SearchItem.value parent) = false))
    ∨ ∃ children, SearchItem.children parent = Some children
                  ∧ item ∈ children.
Proof.
  unfold flatten_item.
  destruct (SearchItem.children parent) as [children|].
  - destruct (falsy (SearchItem.value parent)).
    + split; [intros ?; right; by exists children|].
      intros [[_ [? | ?]] | (? & [= <-] & ?)]; done.
    + rewrite elem_of_cons. split.
      * intros [-> | ?]; [left; split; [done | by right]|].
        right. by exists children.
      * intros [[-> _] | (? & [= <-] & ?)]; [by left | by right].
  - rewrite elem_of_cons, elem_of_nil. split.
    + intros [-> | []]. left. split; [done | by left].
    + intros [[-> _] | (? & ? & _)]; [by left | done].
Qed.


(** With five characters left the recent search does not fit: there is
    no group of recent searches, and still the flat list holds it. *)
Example createSearchGroups_recent_unfiltered :
  let result :=
    createSearchGroups [search_item "a:b" false]
      (Some [search_item "is:unresolved" false]) "is" SampleTagKey None
      (Some 5%Z) None in
  map SearchGroup.title (searchGroups result) = ["Keys"]
  ∧ flatSearchItems result
    = [search_item "a:b" false; search_item "is:unresolved" false].
Proof. split; reflexivity. Qed.
